(** * ore-alt-client: account decoding, address seeds and the page's fetch effect

    Shallow embedding of
    - [frontend/lib/accounts.ts]: [getBoardPDA], [getRoundPDA], [fetchBoard],
      [fetchRound], [lamportsToSol], [gramsToOre], [calculateTimeRemaining];
    - [frontend/lib/types.ts]: [Board], [Round], [CONSTANTS];
    - the page component [Home] with its [fetchData] effect, its four
      pages, its mining grid and its dashboard.

    Account data is a [list byte] (a Node/browser [Buffer]); [bigint] values
    are [Z]; JavaScript [number]s are IEEE-754 binary64 values, modelled with
    the standard library's [spec_float] at precision 53; thrown exceptions
    are the [Throw] case of a result type. *)

From Stdlib Require Import Ascii String ZArith Bool Lia List.
From Stdlib Require Import Floats.SpecFloat.
From coqutil Require Import Byte Word.LittleEndianList.
Import ListNotations.

Local Open Scope Z_scope.

(** ** Exceptions and results *)

(** What the code can throw.  The four [Error]s are the ones raised by
    [throw new Error(...)] in accounts.ts; [BufferRangeError] is the
    [RangeError] raised by [Buffer.readBigUInt64LE] and
    [Buffer.writeUInt32LE]; [External] is anything thrown by a collaborator
    (the RPC connection, the program-address search). *)
Inductive Exn : Type :=
| BoardAccountNotFound                  (* 'Board account not found' *)
| InvalidBoardAccountData               (* 'Invalid Board account data' *)
| RoundAccountNotFound (roundId : Z)    (* `Round account not found for round ${roundId}` *)
| InvalidRoundAccountData               (* 'Invalid Round account data' *)
| BufferRangeError
| External (msg : string).

Inductive result (A : Type) : Type :=
| Ok (a : A)
| Throw (e : Exn).
Arguments Ok {A} a.
Arguments Throw {A} e.

Definition bind {A B : Type} (c : result A) (k : A -> result B) : result B :=
  match c with
  | Ok a => k a
  | Throw e => Throw e
  end.

Declare Scope js_scope.
Notation "x <- c ;; k" := (bind c (fun x => k))
  (at level 61, c at next level, right associativity) : js_scope.
Notation "' pat <- c ;; k" := (bind c (fun x => match x with pat => k end))
  (at level 61, pat pattern, c at next level, right associativity) : js_scope.
Local Open Scope js_scope.

(** ** JavaScript numbers

    A [number] is a binary64 float: [spec_float] with precision 53 and
    maximal exponent 1024, rounding to nearest, ties to even. *)

Module Js.

Definition prec : Z := 53.
Definition emax : Z := 1024.

(** [Number(z)] for a [bigint] [z], and integer literals such as
    [0x100000000]: the float nearest to the integer. *)
Definition Number (z : Z) : spec_float := binary_normalize prec emax z 0 false.

(** The integer part of a float, towards zero; [0] for NaN and the
    infinities, as in the ToInt32 and ToUint32 conversions. *)
Definition trunc (x : spec_float) : Z :=
  match x with
  | S754_finite s m e =>
      cond_Zopp s (match e with
                   | Z0 => Zpos m
                   | Zpos _ => Zpos m * 2 ^ e
                   | Zneg _ => Zpos m / 2 ^ (- e)
                   end)
  | _ => 0
  end.

Definition ToUint32 (x : spec_float) : Z := trunc x mod 2 ^ 32.

Definition ToInt32 (x : spec_float) : Z :=
  let k := ToUint32 x in
  if 2 ^ 31 <=? k then k - 2 ^ 32 else k.

(** [a & b]: both operands through ToInt32, the result a signed 32-bit
    integer. *)
Definition bitand (a b : spec_float) : spec_float :=
  Number (Z.land (ToInt32 a) (ToInt32 b)).

Definition mul (a b : spec_float) : spec_float := SFmul prec emax a b.
Definition div (a b : spec_float) : spec_float := SFdiv prec emax a b.

(** [Math.floor]: floats with a non-negative exponent are integers already;
    otherwise the magnitude is below 2^53 and its floor is exact. *)
Definition Math_floor (x : spec_float) : spec_float :=
  match x with
  | S754_finite s m e =>
      match e with
      | Zneg _ => binary_normalize prec emax (cond_Zopp s (Zpos m) / 2 ^ (- e)) 0 s
      | _ => x
      end
  | _ => x
  end.

(** [Math.max(a, b)]: NaN if either is NaN, and [+0] above [-0]. *)
Definition Math_max (a b : spec_float) : spec_float :=
  match a, b with
  | S754_nan, _ | _, S754_nan => S754_nan
  | S754_zero sa, S754_zero sb => S754_zero (sa && sb)
  | _, _ => if SFltb a b then b else a
  end.

(** [x >= 0] on numbers; false for NaN. *)
Definition nonneg (x : spec_float) : bool := SFleb (S754_zero false) x.

End Js.

(** ** Buffer primitives *)

Module Buffer.

(** [buf.readBigUInt64LE(offset)]: the eight bytes at [offset], least
    significant first; a [RangeError] when they are not all inside the
    buffer. *)
Definition readBigUInt64LE (data : list byte) (offset : nat) : result Z :=
  if (offset + 8 <=? length data)%nat
  then Ok (le_combine (firstn 8 (skipn offset data)))
  else Throw BufferRangeError.

(** [buf.subarray(start, end)]: a view clamped to the buffer, never an
    error. *)
Definition subarray (data : list byte) (start stop : nat) : list byte :=
  firstn (stop - start) (skipn start data).

(** [Buffer.from(str)] for an ASCII string. *)
Definition from (s : string) : list byte := list_byte_of_string s.

(** [Buffer.alloc(n)]: [n] zero bytes. *)
Definition alloc (n : nat) : list byte := repeat Byte.x00 n.

(** [buf.writeUInt32LE(value, offset)]: a [RangeError] when [value] is
    below 0 or above 0xffffffff, or when the four bytes do not fit;
    otherwise the four bytes of [value], least significant first, are
    stored at [offset]. *)
Definition writeUInt32LE (buf : list byte) (value : spec_float) (offset : nat)
  : result (list byte) :=
  if SFltb (Js.Number 4294967295) value || SFltb value (Js.Number 0)
  then Throw BufferRangeError
  else if (length buf <? offset + 4)%nat then Throw BufferRangeError
  else Ok (firstn offset buf ++ le_split 4 (Js.ToUint32 value)
             ++ skipn (offset + 4) buf).

End Buffer.

(** ** Records of types.ts *)

Record Board : Type := mkBoard {
  roundId : Z;
  startSlot : Z;
  endSlot : Z
}.

Record Round : Type := mkRound {
  id : Z;
  deployed : list Z;
  slotHash : list byte;
  count : list Z;
  expiresAt : Z;
  motherlode : Z;
  rentPayer : string;
  topMiner : string;
  topMinerReward : Z;
  totalDeployed : Z;
  totalVaulted : Z;
  totalWinnings : Z
}.

(** ** Decoding (accounts.ts, bodies of [fetchBoard] and [fetchRound]) *)

(** Lines 64-87 of [fetchBoard]: what happens to [accountInfo.data]. *)
Definition decodeBoard (data : list byte) : result Board :=
  if (length data <? 8)%nat then Throw InvalidBoardAccountData
  else
    let offset := 8%nat in
    roundId <- Buffer.readBigUInt64LE data offset ;;
    let offset := (offset + 8)%nat in
    startSlot <- Buffer.readBigUInt64LE data offset ;;
    let offset := (offset + 8)%nat in
    endSlot <- Buffer.readBigUInt64LE data offset ;;
    Ok (mkBoard roundId startSlot endSlot).

(** The loop [for (let i = 0; i < 25; i++) { xs.push(data.readBigUInt64LE(offset)); offset += 8; }]
    with [n] iterations left; returns the pushed values and the advanced
    offset. *)
Fixpoint read_u64_loop (n : nat) (data : list byte) (offset : nat) (acc : list Z)
  : result (list Z * nat) :=
  match n with
  | O => Ok (acc, offset)
  | S n' =>
      v <- Buffer.readBigUInt64LE data offset ;;
      read_u64_loop n' data (offset + 8)%nat (acc ++ [v])
  end.

Section Decode.

(** [new PublicKey(bytes).toString()] of @solana/web3.js: the base-58
    rendering of a key of at most 32 bytes (it does not throw on a shorter
    view).  It is a library function outside the repository and is taken
    as a parameter. *)
Variable PublicKey_toString : list byte -> string.

(** Lines 109-189 of [fetchRound]. *)
Definition decodeRound (data : list byte) : result Round :=
    if (length data <? 8)%nat then Throw InvalidRoundAccountData
    else
      let offset := 8%nat in
      id <- Buffer.readBigUInt64LE data offset ;;
      let offset := (offset + 8)%nat in
      '(deployed, offset) <- read_u64_loop 25 data offset [] ;;
      let slotHash := Buffer.subarray data offset (offset + 32) in
      let offset := (offset + 32)%nat in
      '(count, offset) <- read_u64_loop 25 data offset [] ;;
      expiresAt <- Buffer.readBigUInt64LE data offset ;;
      let offset := (offset + 8)%nat in
      motherlode <- Buffer.readBigUInt64LE data offset ;;
      let offset := (offset + 8)%nat in
      let rentPayerBytes := Buffer.subarray data offset (offset + 32) in
      let rentPayer := PublicKey_toString rentPayerBytes in
      let offset := (offset + 32)%nat in
      let topMinerBytes := Buffer.subarray data offset (offset + 32) in
      let topMiner := PublicKey_toString topMinerBytes in
      let offset := (offset + 32)%nat in
      topMinerReward <- Buffer.readBigUInt64LE data offset ;;
      let offset := (offset + 8)%nat in
      totalDeployed <- Buffer.readBigUInt64LE data offset ;;
      let offset := (offset + 8)%nat in
      totalVaulted <- Buffer.readBigUInt64LE data offset ;;
      let offset := (offset + 8)%nat in
      totalWinnings <- Buffer.readBigUInt64LE data offset ;;
      Ok (mkRound id deployed slotHash count expiresAt motherlode
                  rentPayer topMiner topMinerReward totalDeployed
                  totalVaulted totalWinnings).

End Decode.

(** ** Constants of types.ts and seeds of accounts.ts *)

Module CONSTANTS.

Definition PROGRAM_ID : string := "oreV3EG1i9BEgiAJ8b177Z2S2rMarzak4NMv1kULvWv".

(** [SECONDS_PER_SLOT: 0.4]: the double nearest to 0.4,
    [0x3FD999999999999A]. *)
Definition SECONDS_PER_SLOT : spec_float :=
  S754_finite false 7205759403792794 (-54).

(** [ONE_ORE: BigInt(10 ** 11)] and [LAMPORTS_PER_SOL: BigInt(10 ** 9)]. *)
Definition ONE_ORE : Z := 100000000000.
Definition LAMPORTS_PER_SOL : Z := 1000000000.

End CONSTANTS.

Module SEEDS.

Definition BOARD : list byte := Buffer.from "board".
Definition ROUND : list byte := Buffer.from "round".

End SEEDS.

(** ** Address derivation (accounts.ts, [getBoardPDA] and [getRoundPDA]) *)

(** Lines 32-37 of [getRoundPDA]: the buffer holding the round id. *)
Definition roundIdBuffer (roundId : Z) : result (list byte) :=
  let roundIdBuffer := Buffer.alloc 8 in
  let roundIdNum := Js.Number roundId in
  roundIdBuffer <-
    Buffer.writeUInt32LE roundIdBuffer
      (Js.bitand roundIdNum (Js.Number 4294967295)) 0 ;;
  Buffer.writeUInt32LE roundIdBuffer
    (Js.Math_floor (Js.div roundIdNum (Js.Number 4294967296))) 4.

(** The seed list handed to [PublicKey.findProgramAddressSync] by
    [getRoundPDA]. *)
Definition roundSeeds (roundId : Z) : result (list (list byte)) :=
  roundIdBuffer <- roundIdBuffer roundId ;;
  Ok [SEEDS.ROUND; roundIdBuffer].

Definition boardSeeds : list (list byte) := [SEEDS.BOARD].

(** ** [calculateTimeRemaining] (accounts.ts, lines 210-216) *)

Definition calculateTimeRemaining (currentSlot endSlot : Z) : spec_float :=
  let slotsRemaining := Js.Number (endSlot - currentSlot) in
  Js.Math_max (Js.Number 0)
    (Js.Math_floor (Js.mul slotsRemaining CONSTANTS.SECONDS_PER_SLOT)).

(** ** Fetching (accounts.ts) and the page component *)

Section Client.

(** The collaborators outside the repository: the address type
    [PublicKey] of @solana/web3.js, its program-address search for the
    fixed [CONSTANTS.PROGRAM_ID], and the key rendering used by
    [decodeRound]. *)
Variable PublicKey : Type.
Variable findProgramAddressSync : list (list byte) -> result PublicKey.
Variable PublicKey_toString : list byte -> string.

(** [connection.getAccountInfo(address)]: the account's data, [None] for
    JavaScript's [null], or a thrown error. *)
Definition Connection : Type := PublicKey -> result (option (list byte)).

Definition getBoardPDA : result PublicKey :=
  findProgramAddressSync boardSeeds.

Definition getRoundPDA (roundId : Z) : result PublicKey :=
  seeds <- roundSeeds roundId ;;
  findProgramAddressSync seeds.

Definition fetchBoard (connection : Connection) : result Board :=
  boardPDA <- getBoardPDA ;;
  accountInfo <- connection boardPDA ;;
  match accountInfo with
  | None => Throw BoardAccountNotFound
  | Some data => decodeBoard data
  end.

Definition fetchRound (connection : Connection) (roundId : Z) : result Round :=
  roundPDA <- getRoundPDA roundId ;;
  accountInfo <- connection roundPDA ;;
  match accountInfo with
  | None => Throw (RoundAccountNotFound roundId)
  | Some data => decodeRound PublicKey_toString data
  end.

(** The four [useState] cells of [Home].  The [error] cell holds the
    message of the caught error; the model keeps the error itself. *)
Record HomeState : Type := mkHome {
  board : option Board;
  round : option Round;
  loading : bool;
  error : option Exn
}.

Definition initialState : HomeState := mkHome None None true None.

Definition setBoard (v : option Board) (s : HomeState) : HomeState :=
  mkHome v (round s) (loading s) (error s).
Definition setRound (v : option Round) (s : HomeState) : HomeState :=
  mkHome (board s) v (loading s) (error s).
Definition setLoading (v : bool) (s : HomeState) : HomeState :=
  mkHome (board s) (round s) v (error s).
Definition setError (v : option Exn) (s : HomeState) : HomeState :=
  mkHome (board s) (round s) (loading s) v.

(** A statement block of the effect: from the current state it yields a
    result, the state reached and the states it went through, one per
    setter call, oldest first. *)
Definition Eff (A : Type) : Type :=
  HomeState -> result A * HomeState * list HomeState.

Definition eff_bind {A B : Type} (c : Eff A) (k : A -> Eff B) : Eff B :=
  fun s =>
    match c s with
    | (Ok a, s1, l1) => let '(r, s2, l2) := k a s1 in (r, s2, l1 ++ l2)
    | (Throw e, s1, l1) => (Throw e, s1, l1)
    end.

Definition update (f : HomeState -> HomeState) : Eff unit :=
  fun s => (Ok tt, f s, [f s]).

Definition await {A : Type} (r : result A) : Eff A :=
  fun s => (r, s, []).

(** [try { body } catch (err) { handler err } finally { finalizer }] *)
Definition try_catch_finally (body : Eff unit) (handler : Exn -> Eff unit)
    (finalizer : Eff unit) : Eff unit :=
  fun s =>
    let '(r, s1, l1) := body s in
    let '(r', s2, l2) :=
      match r with
      | Ok _ => (Ok tt, s1, [])
      | Throw e => handler e s1
      end in
    let '(r'', s3, l3) := finalizer s2 in
    (match r'' with Ok _ => r' | Throw e => Throw e end, s3, l1 ++ l2 ++ l3).

Notation "x <-- c ;;; k" := (eff_bind c (fun x => k))
  (at level 61, c at next level, right associativity).
Notation "c ;;; k" := (eff_bind c (fun _ => k))
  (at level 61, right associativity).

(** The [try] block of [fetchData], lines 17-30.  The two arguments of
    [console.log] are evaluated for their exceptions only. *)
Definition fetchData_try (connection : Connection) : Eff unit :=
  update (setLoading true) ;;;
  update (setError None) ;;;
  _ <-- await getBoardPDA ;;;
  boardData <-- await (fetchBoard connection) ;;;
  update (setBoard (Some boardData)) ;;;
  _ <-- await (getRoundPDA (roundId boardData)) ;;;
  roundData <-- await (fetchRound connection (roundId boardData)) ;;;
  update (setRound (Some roundData)).

(** [fetchData], lines 15-38. *)
Definition fetchData (connection : Connection) : Eff unit :=
  try_catch_finally (fetchData_try connection)
    (fun err => update (setError (Some err)))
    (update (setLoading false)).

(** The state in which one run of [fetchData] leaves the component, and
    the states a reader can see while it runs. *)
Definition fetchData_final (connection : Connection) (s : HomeState) : HomeState :=
  snd (fst (fetchData connection s)).
Definition fetchData_trace (connection : Connection) (s : HomeState) : list HomeState :=
  snd (fetchData connection s).

(** What [Home] returns, lines 43-81: which of its four pages. *)
Inductive View : Type :=
| LoadingView
| ErrorView (message : Exn)
| NoDataView
| DashboardView (b : Board) (r : Round).

Definition Home_render (s : HomeState) : View :=
  if loading s then LoadingView
  else match error s with
       | Some e => ErrorView e
       | None =>
           match board s, round s with
           | Some b, Some r => DashboardView b r
           | _, _ => NoDataView
           end
       end.

(** React's [useEffect(effect, deps)]: the effect runs after the first
    render and after each later render whose dependency list differs
    from the previous one. *)
Definition effect_runs (prevDeps : option (list Z)) (deps : list Z) : bool :=
  match prevDeps with
  | None => true
  | Some prev => negb (if list_eq_dec Z.eq_dec prev deps then true else false)
  end.

(** The dependency list of [Home]'s only effect, line 41: [[]]. *)
Definition Home_deps : list Z := [].

(** The life of a mounted [Home]: [n] successive renders, numbered from
    [k]; the remote store may answer differently at each of them
    ([store k] is the connection as it behaves at render [k]).  Returns
    the state after the last render's effects and the number of times
    [fetchData] was started. *)
Fixpoint Home_renders (store : nat -> Connection) (n k : nat)
    (prevDeps : option (list Z)) (s : HomeState) (started : nat)
  : HomeState * nat :=
  match n with
  | O => (s, started)
  | S n' =>
      if effect_runs prevDeps Home_deps
      then Home_renders store n' (S k) (Some Home_deps)
             (fetchData_final (store k) s) (S started)
      else Home_renders store n' (S k) (Some Home_deps) s started
  end.

Definition Home_mounted (store : nat -> Connection) (renders : nat) : HomeState * nat :=
  Home_renders store renders 0 None initialState 0.

End Client.

Arguments Connection PublicKey : clear implicits.
Arguments getBoardPDA {PublicKey} findProgramAddressSync.
Arguments getRoundPDA {PublicKey} findProgramAddressSync roundId.
Arguments fetchBoard {PublicKey} findProgramAddressSync connection.
Arguments fetchRound {PublicKey} findProgramAddressSync PublicKey_toString
  connection roundId.
Arguments fetchData_try {PublicKey} findProgramAddressSync PublicKey_toString
  connection.
Arguments fetchData {PublicKey} findProgramAddressSync PublicKey_toString
  connection.
Arguments fetchData_final {PublicKey} findProgramAddressSync PublicKey_toString
  connection s.
Arguments fetchData_trace {PublicKey} findProgramAddressSync PublicKey_toString
  connection s.
Arguments Home_renders {PublicKey} findProgramAddressSync PublicKey_toString
  store n k prevDeps s started.
Arguments Home_mounted {PublicKey} findProgramAddressSync PublicKey_toString
  store renders.

(** ** Unit conversions (accounts.ts, lines 195-204) *)

Definition lamportsToSol (lamports : Z) : spec_float :=
  Js.div (Js.Number lamports) (Js.Number CONSTANTS.LAMPORTS_PER_SOL).

Definition gramsToOre (grams : Z) : spec_float :=
  Js.div (Js.Number grams) (Js.Number CONSTANTS.ONE_ORE).

(** ** The dashboard of the page (lines 81-209 of [Home])

    The values the JSX interpolates, in the order it evaluates them.
    Numbers are kept as numbers (their [toFixed(4)] text is not modelled)
    and [bigint]s as integers (their decimal text is not modelled). *)

(** [n.toString(16)] for a byte value: lower-case digits, no leading
    zero. *)
Definition hex_digit (d : Z) : ascii :=
  if d <? 10 then ascii_of_nat (48 + Z.to_nat d)
  else ascii_of_nat (87 + Z.to_nat d).

Definition toString16 (b : byte) : string :=
  let v := byte.unsigned b in
  if v <? 16 then String (hex_digit v) EmptyString
  else String (hex_digit (v / 16)) (String (hex_digit (v mod 16)) EmptyString).

(** [s.padStart(n, '0')] *)
Definition padStart0 (n : nat) (s : string) : string :=
  String.concat "" (repeat "0"%string (n - String.length s)) ++ s.

(** [Array.from(slotHash).map(b => b.toString(16).padStart(2, '0')).join('')],
    line 203. *)
Definition slotHashHex (slotHash : list byte) : string :=
  String.concat "" (map (fun b => padStart0 2 (toString16 b)) slotHash).

(** One square of the mining grid, lines 140-160: its React key and
    label, whether it is drawn as empty ([sol === 0]), the amount in SOL,
    the miner count, and whether the word after the count is "miners"
    ([miners !== 1n]). *)
Record Cell : Type := mkCell {
  cell_index : nat;
  cell_isEmpty : bool;
  cell_sol : spec_float;
  cell_miners : Z;
  cell_plural : bool
}.

(** What ends a render early: an error thrown by the address functions,
    or the [TypeError] of calling [toString] on [undefined]. *)
Inductive Crash : Type :=
| CrashWith (e : Exn)
| CrashTypeError.

Inductive Rendered (A : Type) : Type :=
| Shown (a : A)
| Crashed (why : Crash).
Arguments Shown {A} a.
Arguments Crashed {A} why.

(** The callback of [round.deployed.map((lamports, index) => ...)]; the
    count of the square is [round.count[index]], [undefined] when the
    index is outside that array. *)
Definition grid_cell (count : list Z) (lamports : Z) (index : nat)
  : Rendered Cell :=
  let sol := lamportsToSol lamports in
  match nth_error count index with
  | None => Crashed CrashTypeError
  | Some miners =>
      Shown (mkCell index (SFeqb sol (Js.Number 0)) sol miners
                    (negb (miners =? 1)))
  end.

(** [Array.prototype.map] over the deployed amounts from [index] on. *)
Fixpoint grid_from (count : list Z) (deployed : list Z) (index : nat)
  : Rendered (list Cell) :=
  match deployed with
  | [] => Shown []
  | lamports :: rest =>
      match grid_cell count lamports index with
      | Crashed why => Crashed why
      | Shown c =>
          match grid_from count rest (S index) with
          | Crashed why => Crashed why
          | Shown cs => Shown (c :: cs)
          end
      end
  end.

Definition Home_grid (round : Round) : Rendered (list Cell) :=
  grid_from (count round) (deployed round) 0.

Record Dashboard (PublicKey : Type) : Type := mkDashboard {
  shown_roundId : Z;
  shown_startSlot : Z;
  shown_endSlot : Z;
  shown_motherlode : spec_float;
  shown_totalDeployed : spec_float;
  shown_grid : list Cell;
  shown_totalWinnings : spec_float;
  shown_totalVaulted : spec_float;
  shown_topMinerReward : spec_float;
  shown_expiresAt : Z;
  shown_boardPDA : PublicKey;
  shown_roundPDA : PublicKey;
  shown_slotHash : string
}.
Arguments mkDashboard {PublicKey}.
Arguments shown_roundId {PublicKey} d.
Arguments shown_startSlot {PublicKey} d.
Arguments shown_endSlot {PublicKey} d.
Arguments shown_motherlode {PublicKey} d.
Arguments shown_totalDeployed {PublicKey} d.
Arguments shown_grid {PublicKey} d.
Arguments shown_totalWinnings {PublicKey} d.
Arguments shown_totalVaulted {PublicKey} d.
Arguments shown_topMinerReward {PublicKey} d.
Arguments shown_expiresAt {PublicKey} d.
Arguments shown_boardPDA {PublicKey} d.
Arguments shown_roundPDA {PublicKey} d.
Arguments shown_slotHash {PublicKey} d.

(** The last [return] of [Home], reached with both records present. *)
Definition Home_dashboard {PublicKey : Type}
    (findProgramAddressSync : list (list byte) -> result PublicKey)
    (board : Board) (round : Round) : Rendered (Dashboard PublicKey) :=
  let motherlode := gramsToOre (motherlode round) in
  let totalDeployed := lamportsToSol (totalDeployed round) in
  match Home_grid round with
  | Crashed why => Crashed why
  | Shown grid =>
      let totalWinnings := lamportsToSol (totalWinnings round) in
      let totalVaulted := lamportsToSol (totalVaulted round) in
      let topMinerReward := gramsToOre (topMinerReward round) in
      match getBoardPDA findProgramAddressSync with
      | Throw e => Crashed (CrashWith e)
      | Ok boardPDA =>
          match getRoundPDA findProgramAddressSync (roundId board) with
          | Throw e => Crashed (CrashWith e)
          | Ok roundPDA =>
              Shown (mkDashboard (roundId board) (startSlot board)
                       (endSlot board) motherlode totalDeployed grid
                       totalWinnings totalVaulted topMinerReward
                       (expiresAt round) boardPDA roundPDA
                       (slotHashHex (slotHash round)))
          end
      end
  end.

(** ** The account layout, as the specification gives it

    The encoders below are written from the specification's byte layout
    (an 8-byte tag, then the fields in declared order, each a little-endian
    64-bit integer or a 32-byte block, no padding); the repository has no
    encoder.  They are what the decoders are compared with. *)

(** The stored form of a round: the two identity fields are raw 32-byte
    keys. *)
Record RoundAccount : Type := mkRoundAccount {
  acc_id : Z;
  acc_deployed : list Z;
  acc_slot_hash : list byte;
  acc_count : list Z;
  acc_expires_at : Z;
  acc_motherlode : Z;
  acc_rent_payer : list byte;
  acc_top_miner : list byte;
  acc_top_miner_reward : Z;
  acc_total_deployed : Z;
  acc_total_vaulted : Z;
  acc_total_winnings : Z
}.

Definition u64 (z : Z) : Prop := 0 <= z < 2 ^ 64.

Definition encode_u64 (z : Z) : list byte := le_split 8 z.

Definition encode_u64s (zs : list Z) : list byte := flat_map encode_u64 zs.

Definition encodeBoard (b : Board) : list byte :=
  encode_u64 (roundId b) ++ encode_u64 (startSlot b) ++ encode_u64 (endSlot b).

Definition encodeRound (a : RoundAccount) : list byte :=
  encode_u64 (acc_id a) ++ encode_u64s (acc_deployed a) ++ acc_slot_hash a
  ++ encode_u64s (acc_count a) ++ encode_u64 (acc_expires_at a)
  ++ encode_u64 (acc_motherlode a) ++ acc_rent_payer a ++ acc_top_miner a
  ++ encode_u64 (acc_top_miner_reward a) ++ encode_u64 (acc_total_deployed a)
  ++ encode_u64 (acc_total_vaulted a) ++ encode_u64 (acc_total_winnings a).

Definition wf_board (b : Board) : Prop :=
  u64 (roundId b) /\ u64 (startSlot b) /\ u64 (endSlot b).

Definition wf_account (a : RoundAccount) : Prop :=
  u64 (acc_id a)
  /\ (length (acc_deployed a) = 25%nat /\ Forall u64 (acc_deployed a))
  /\ length (acc_slot_hash a) = 32%nat
  /\ (length (acc_count a) = 25%nat /\ Forall u64 (acc_count a))
  /\ u64 (acc_expires_at a) /\ u64 (acc_motherlode a)
  /\ length (acc_rent_payer a) = 32%nat /\ length (acc_top_miner a) = 32%nat
  /\ u64 (acc_top_miner_reward a) /\ u64 (acc_total_deployed a)
  /\ u64 (acc_total_vaulted a) /\ u64 (acc_total_winnings a).

(** The [Round] that [fetchRound] is expected to return for a stored
    account: every field as stored, the two keys rendered. *)
Definition Round_of_account (toStr : list byte -> string) (a : RoundAccount) : Round :=
  mkRound (acc_id a) (acc_deployed a) (acc_slot_hash a) (acc_count a)
    (acc_expires_at a) (acc_motherlode a)
    (toStr (acc_rent_payer a)) (toStr (acc_top_miner a))
    (acc_top_miner_reward a) (acc_total_deployed a)
    (acc_total_vaulted a) (acc_total_winnings a).

(** ** Auxiliary notions used in the statements *)

(** [x] is a zero, a finite number or an infinity, with sign bit [s]. *)
Definition has_sign (s : bool) (x : spec_float) : Prop :=
  match x with
  | S754_zero s' | S754_infinity s' | S754_finite s' _ _ => s' = s
  | S754_nan => False
  end.

(** The states [fetchData] goes through in its three outcomes. *)
Definition states_board_failed (s : HomeState) (e : Exn) : list HomeState :=
  [ mkHome (board s) (round s) true (error s);
    mkHome (board s) (round s) true None;
    mkHome (board s) (round s) true (Some e);
    mkHome (board s) (round s) false (Some e) ].

Definition states_round_failed (s : HomeState) (b : Board) (e : Exn)
  : list HomeState :=
  [ mkHome (board s) (round s) true (error s);
    mkHome (board s) (round s) true None;
    mkHome (Some b) (round s) true None;
    mkHome (Some b) (round s) true (Some e);
    mkHome (Some b) (round s) false (Some e) ].

Definition states_success (s : HomeState) (b : Board) (r : Round)
  : list HomeState :=
  [ mkHome (board s) (round s) true (error s);
    mkHome (board s) (round s) true None;
    mkHome (Some b) (round s) true None;
    mkHome (Some b) (Some r) true None;
    mkHome (Some b) (Some r) false None ].

(** A number that is neither a zero nor a NaN, of sign [s]. *)
Definition nonzero_of_sign (s : bool) (x : spec_float) : Prop :=
  (exists m e, x = S754_finite s m e) \/ x = S754_infinity s.

(** A positive number that is at least 1: finite with its leading bit at
    or above the units, or infinite. *)
Definition at_least_one (x : spec_float) : Prop :=
  (exists m e, x = S754_finite false m e /\ 1 <= Zdigits2 (Z.pos m) + e)
  \/ x = S754_infinity false.

(** Reading hexadecimal text back, two digits per byte. *)
Definition hex_value (c : ascii) : Z :=
  let n := Z.of_nat (nat_of_ascii c) in
  if n <? 58 then n - 48 else n - 87.

Definition byte_of_hex (hi lo : ascii) : byte :=
  byte.of_Z (16 * hex_value hi + hex_value lo).

Fixpoint unhex (s : string) : list byte :=
  match s with
  | String hi (String lo rest) => byte_of_hex hi lo :: unhex rest
  | _ => []
  end.

Definition is_hex_digit (c : ascii) : bool :=
  let n := nat_of_ascii c in
  ((48 <=? n) && (n <=? 57) || (97 <=? n) && (n <=? 102))%nat.

(** ** Sample data

    Concrete accounts, buffers and collaborators on which the definitions
    above can be run. *)

Module Sample.

(** A stand-in for the key rendering: the bytes as a string. *)
Definition key_text (bs : list byte) : string := string_of_list_byte bs.

(** A stand-in for the address search: the seed list is the address. *)
Definition Address : Type := list (list byte).
Definition find : list (list byte) -> result Address := fun seeds => Ok seeds.

Definition tag : list byte :=
  [Byte.x64; Byte.x69; Byte.x73; Byte.x63; Byte.x72; Byte.x69; Byte.x6d; Byte.x01].
Definition other_tag : list byte := repeat Byte.xff 8.

Definition board6 : Board := mkBoard 6 40 90.
Definition board7 : Board := mkBoard 7 100 250.
Definition board9 : Board := mkBoard 9 300 450.

Definition account (id : Z) : RoundAccount :=
  mkRoundAccount id
    (map Z.of_nat (seq 1 25))
    (repeat Byte.xaa 32)
    (repeat 2 25)
    300 100000000000
    (repeat Byte.x41 32) (repeat Byte.x42 32)
    5 325 10 20.

Definition round (id : Z) : Round := Round_of_account key_text (account id).

Definition board_bytes (b : Board) : list byte := tag ++ encodeBoard b.
Definition round_bytes (id : Z) : list byte := tag ++ encodeRound (account id).

(** A remote store holding at most a board account and a round account;
    the board is asked for with one seed, a round with two. *)
Definition store (boardAccount roundAccount : result (option (list byte)))
  : Connection Address :=
  fun address =>
    match address with
    | [_] => boardAccount
    | _ => roundAccount
    end.

(** A state left by an earlier successful run. *)
Definition earlier : HomeState :=
  mkHome (Some board6) (Some (round 6)) false None.

(** A store whose board record advances after the first render. *)
Definition changing_store (k : nat) : Connection Address :=
  match k with
  | O => store (Ok (Some (board_bytes board7))) (Ok (Some (round_bytes 7)))
  | _ => store (Ok (Some (board_bytes board9))) (Ok (Some (round_bytes 9)))
  end.

End Sample.

(** * Properties *)

(** ** Reading from a buffer laid out as a concatenation *)

Lemma length_encode_u64 (z : Z) : length (encode_u64 z) = 8%nat.
Proof. apply length_le_split. Qed.

Lemma length_encode_u64s (zs : list Z) :
  length (encode_u64s zs) = (8 * length zs)%nat.
Proof.
  induction zs as [|z zs IH]; [reflexivity|].
  unfold encode_u64s in *. cbn [flat_map length].
  rewrite length_app, length_encode_u64, IH. lia.
Qed.

Lemma skipn_prefix {A : Type} (pre rest : list A) (off : nat) :
  length pre = off -> skipn off (pre ++ rest) = rest.
Proof.
  intros <-. rewrite skipn_app, skipn_all, Nat.sub_diag. reflexivity.
Qed.

Lemma firstn_prefix {A : Type} (blk rest : list A) (n : nat) :
  length blk = n -> firstn n (blk ++ rest) = blk.
Proof.
  intros <-. rewrite firstn_app, firstn_all, Nat.sub_diag.
  cbn [firstn]. apply app_nil_r.
Qed.

Lemma read_at (data pre rest : list byte) (v : Z) (off : nat) :
  data = pre ++ encode_u64 v ++ rest ->
  length pre = off -> u64 v ->
  Buffer.readBigUInt64LE data off = Ok v.
Proof.
  intros -> Hpre Hv. unfold Buffer.readBigUInt64LE.
  rewrite !length_app, length_encode_u64, Hpre.
  replace (off + 8 <=? off + (8 + length rest))%nat with true
    by (symmetry; apply Nat.leb_le; lia).
  rewrite (skipn_prefix _ _ _ Hpre).
  rewrite (firstn_prefix _ _ 8 (length_encode_u64 v)).
  unfold encode_u64. rewrite le_combine_split.
  f_equal. apply Z.mod_small. exact Hv.
Qed.

Lemma subarray_at (data pre blk rest : list byte) (off stop : nat) :
  data = pre ++ blk ++ rest ->
  length pre = off -> length blk = (stop - off)%nat ->
  Buffer.subarray data off stop = blk.
Proof.
  intros -> Hpre Hblk. unfold Buffer.subarray.
  rewrite (skipn_prefix _ _ _ Hpre). apply firstn_prefix, Hblk.
Qed.

Lemma read_loop_at (vs : list Z) :
  forall (data pre rest : list byte) (off n : nat) (acc : list Z),
    data = pre ++ encode_u64s vs ++ rest ->
    length pre = off -> length vs = n -> Forall u64 vs ->
    read_u64_loop n data off acc = Ok (acc ++ vs, (off + 8 * n)%nat).
Proof.
  induction vs as [|v vs IH]; intros data pre rest off n acc Hd Hpre Hn Hvs.
  - subst n. cbn. rewrite app_nil_r. do 2 f_equal. lia.
  - cbn [length] in Hn. subst n. cbn [read_u64_loop].
    inversion Hvs as [|? ? Hv Hvs']; subst.
    assert (Hd : pre ++ encode_u64s (v :: vs) ++ rest
                 = pre ++ encode_u64 v ++ encode_u64s vs ++ rest).
    { unfold encode_u64s. cbn [flat_map]. rewrite <- !app_assoc. reflexivity. }
    rewrite (read_at _ pre (encode_u64s vs ++ rest) v (length pre) Hd eq_refl Hv).
    cbn [bind].
    rewrite (IH _ (pre ++ encode_u64 v) rest (length pre + 8)%nat (length vs)
                (acc ++ [v])).
    + rewrite <- app_assoc. cbn [app]. do 2 f_equal. lia.
    + rewrite Hd, <- !app_assoc. reflexivity.
    + rewrite length_app, length_encode_u64. reflexivity.
    + reflexivity.
    + exact Hvs'.
Qed.

(** The offset a completed loop hands on, whatever it read. *)
Lemma read_loop_offset (n : nat) :
  forall (data : list byte) (off : nat) (acc vs : list Z) (off' : nat),
    read_u64_loop n data off acc = Ok (vs, off') -> off' = (off + 8 * n)%nat.
Proof.
  induction n as [|n IH]; intros data off acc vs off' H; cbn in H.
  - inversion H. lia.
  - destruct (Buffer.readBigUInt64LE data off) as [v|e]; cbn in H; [|discriminate].
    apply IH in H. lia.
Qed.

Lemma read_loop_throws (n : nat) :
  forall (data : list byte) (off : nat) (acc : list Z) (e : Exn),
    read_u64_loop n data off acc = Throw e -> e = BufferRangeError.
Proof.
  induction n as [|n IH]; intros data off acc e H; cbn in H; [discriminate|].
  unfold Buffer.readBigUInt64LE in H.
  destruct (off + 8 <=? length data)%nat; cbn in H.
  - eapply IH, H.
  - congruence.
Qed.

Lemma read_loop_ok_length (n : nat) :
  forall (data : list byte) (off : nat) (acc vs : list Z) (off' : nat),
    read_u64_loop n data off acc = Ok (vs, off') ->
    (off + 8 * n <= length data \/ n = 0)%nat.
Proof.
  induction n as [|n IH]; intros data off acc vs off' H; [now right|left].
  cbn in H. unfold Buffer.readBigUInt64LE in H.
  destruct (off + 8 <=? length data)%nat eqn:E; cbn in H; [|discriminate].
  apply Nat.leb_le in E. apply IH in H. lia.
Qed.

(** ** Decoding what the layout encodes *)

Ltac list_length :=
  repeat rewrite ?length_app, ?length_encode_u64, ?length_encode_u64s;
  lia.

Ltac same_list := rewrite <- ?app_assoc; reflexivity.

Lemma length_encodeBoard (b : Board) : length (encodeBoard b) = 24%nat.
Proof. unfold encodeBoard. list_length. Qed.

Lemma length_encodeRound (a : RoundAccount) :
  wf_account a -> length (encodeRound a) = 552%nat.
Proof.
  intros (_ & (Hd & _) & Hh & (Hc & _) & _ & _ & Hr & Ht & _).
  unfold encodeRound.
  repeat rewrite ?length_app, ?length_encode_u64, ?length_encode_u64s.
  rewrite Hd, Hh, Hc, Hr, Ht. reflexivity.
Qed.

Lemma decodeBoard_encode (tag extra : list byte) (b : Board) :
  length tag = 8%nat -> wf_board b ->
  decodeBoard (tag ++ encodeBoard b ++ extra) = Ok b.
Proof.
  intros Htag (H1 & H2 & H3). destruct b as [r s e]. cbn [roundId startSlot endSlot] in *.
  unfold decodeBoard.
  replace (length (tag ++ encodeBoard (mkBoard r s e) ++ extra) <? 8)%nat
    with false by (symmetry; apply Nat.ltb_ge; rewrite length_app; lia).
  unfold encodeBoard. cbn [roundId startSlot endSlot].
  rewrite (read_at _ tag (encode_u64 s ++ encode_u64 e ++ extra) r 8);
    [cbn [bind]| same_list | list_length | assumption].
  rewrite (read_at _ (tag ++ encode_u64 r) (encode_u64 e ++ extra) s 16);
    [cbn [bind]| same_list | list_length | assumption].
  rewrite (read_at _ (tag ++ encode_u64 r ++ encode_u64 s) extra e 24);
    [cbn [bind]| same_list | list_length | assumption].
  reflexivity.
Qed.

Lemma decodeRound_encode (toStr : list byte -> string) (tag extra : list byte)
    (a : RoundAccount) :
  length tag = 8%nat -> wf_account a ->
  decodeRound toStr (tag ++ encodeRound a ++ extra)
  = Ok (Round_of_account toStr a).
Proof.
  intros Htag Hwf. pose proof (length_encodeRound a Hwf) as Hlen.
  destruct Hwf as (H1 & (Ld & Fd) & Lh & (Lc & Fc) & H5 & H6 & Lr & Lt
                   & H9 & H10 & H11 & H12).
  unfold decodeRound.
  replace (length (tag ++ encodeRound a ++ extra) <? 8)%nat
    with false by (symmetry; apply Nat.ltb_ge; rewrite length_app; lia).
  clear Hlen. unfold Round_of_account, encodeRound.
  destruct a as [i d h c ex mo rp tm tr td tv tw];
    cbn [acc_id acc_deployed acc_slot_hash acc_count acc_expires_at
         acc_motherlode acc_rent_payer acc_top_miner acc_top_miner_reward
         acc_total_deployed acc_total_vaulted acc_total_winnings] in *.
  set (f1 := encode_u64 i). set (f2 := encode_u64s d).
  set (f4 := encode_u64s c). set (f5 := encode_u64 ex).
  set (f6 := encode_u64 mo). set (f9 := encode_u64 tr).
  set (f10 := encode_u64 td). set (f11 := encode_u64 tv).
  set (f12 := encode_u64 tw).
  assert (L1 : length f1 = 8%nat) by apply length_encode_u64.
  assert (L2 : length f2 = 200%nat)
    by (subst f2; rewrite length_encode_u64s, Ld; lia).
  assert (L4 : length f4 = 200%nat)
    by (subst f4; rewrite length_encode_u64s, Lc; lia).
  assert (L5 : length f5 = 8%nat) by apply length_encode_u64.
  assert (L6 : length f6 = 8%nat) by apply length_encode_u64.
  assert (L9 : length f9 = 8%nat) by apply length_encode_u64.
  assert (L10 : length f10 = 8%nat) by apply length_encode_u64.
  assert (L11 : length f11 = 8%nat) by apply length_encode_u64.
  assert (L12 : length f12 = 8%nat) by apply length_encode_u64.
  set (data := tag ++ (f1 ++ f2 ++ h ++ f4 ++ f5 ++ f6 ++ rp ++ tm
                 ++ f9 ++ f10 ++ f11 ++ f12) ++ extra).
  assert (R1 : Buffer.readBigUInt64LE data 8 = Ok i).
  { apply (read_at _ tag (f2 ++ h ++ f4 ++ f5 ++ f6 ++ rp ++ tm
                            ++ f9 ++ f10 ++ f11 ++ f12 ++ extra)); trivial.
    subst data; same_list. }
  assert (R2 : read_u64_loop 25 data 16 [] = Ok (d, 216%nat)).
  { apply (read_loop_at d _ (tag ++ f1)
             (h ++ f4 ++ f5 ++ f6 ++ rp ++ tm ++ f9 ++ f10 ++ f11 ++ f12 ++ extra));
      trivial; [subst data; same_list | rewrite length_app; lia]. }
  assert (R3 : Buffer.subarray data 216 248 = h).
  { apply (subarray_at _ (tag ++ f1 ++ f2) h
             (f4 ++ f5 ++ f6 ++ rp ++ tm ++ f9 ++ f10 ++ f11 ++ f12 ++ extra));
      [subst data; same_list | rewrite !length_app; lia | lia]. }
  assert (R4 : read_u64_loop 25 data 248 [] = Ok (c, 448%nat)).
  { apply (read_loop_at c _ (tag ++ f1 ++ f2 ++ h)
             (f5 ++ f6 ++ rp ++ tm ++ f9 ++ f10 ++ f11 ++ f12 ++ extra));
      trivial; [subst data; same_list | rewrite !length_app; lia]. }
  assert (R5 : Buffer.readBigUInt64LE data 448 = Ok ex).
  { apply (read_at _ (tag ++ f1 ++ f2 ++ h ++ f4)
             (f6 ++ rp ++ tm ++ f9 ++ f10 ++ f11 ++ f12 ++ extra));
      trivial; [subst data; same_list | rewrite !length_app; lia]. }
  assert (R6 : Buffer.readBigUInt64LE data 456 = Ok mo).
  { apply (read_at _ (tag ++ f1 ++ f2 ++ h ++ f4 ++ f5)
             (rp ++ tm ++ f9 ++ f10 ++ f11 ++ f12 ++ extra));
      trivial; [subst data; same_list | rewrite !length_app; lia]. }
  assert (R7 : Buffer.subarray data 464 496 = rp).
  { apply (subarray_at _ (tag ++ f1 ++ f2 ++ h ++ f4 ++ f5 ++ f6) rp
             (tm ++ f9 ++ f10 ++ f11 ++ f12 ++ extra));
      [subst data; same_list | rewrite !length_app; lia | lia]. }
  assert (R8 : Buffer.subarray data 496 528 = tm).
  { apply (subarray_at _ (tag ++ f1 ++ f2 ++ h ++ f4 ++ f5 ++ f6 ++ rp) tm
             (f9 ++ f10 ++ f11 ++ f12 ++ extra));
      [subst data; same_list | rewrite !length_app; lia | lia]. }
  assert (R9 : Buffer.readBigUInt64LE data 528 = Ok tr).
  { apply (read_at _ (tag ++ f1 ++ f2 ++ h ++ f4 ++ f5 ++ f6 ++ rp ++ tm)
             (f10 ++ f11 ++ f12 ++ extra));
      trivial; [subst data; same_list | rewrite !length_app; lia]. }
  assert (R10 : Buffer.readBigUInt64LE data 536 = Ok td).
  { apply (read_at _ (tag ++ f1 ++ f2 ++ h ++ f4 ++ f5 ++ f6 ++ rp ++ tm ++ f9)
             (f11 ++ f12 ++ extra));
      trivial; [subst data; same_list | rewrite !length_app; lia]. }
  assert (R11 : Buffer.readBigUInt64LE data 544 = Ok tv).
  { apply (read_at _ (tag ++ f1 ++ f2 ++ h ++ f4 ++ f5 ++ f6 ++ rp ++ tm
                        ++ f9 ++ f10) (f12 ++ extra));
      trivial; [subst data; same_list | rewrite !length_app; lia]. }
  assert (R12 : Buffer.readBigUInt64LE data 552 = Ok tw).
  { apply (read_at _ (tag ++ f1 ++ f2 ++ h ++ f4 ++ f5 ++ f6 ++ rp ++ tm
                        ++ f9 ++ f10 ++ f11) extra);
      trivial; [subst data; same_list | rewrite !length_app; lia]. }
  clearbody data.
  rewrite R1. cbn [bind Nat.add].
  rewrite R2. cbn [bind Nat.add].
  rewrite R3, R4. cbn [bind Nat.add].
  rewrite R5. cbn [bind Nat.add].
  rewrite R6. cbn [bind Nat.add].
  rewrite R7, R8, R9. cbn [bind Nat.add].
  rewrite R10. cbn [bind Nat.add].
  rewrite R11. cbn [bind Nat.add].
  rewrite R12. reflexivity.
Qed.

(** ** Every buffer that is long enough is a tag followed by an encoding *)

Lemma take_prefix {A : Type} (n m : nat) (l : list A) :
  length l = (n + m)%nat ->
  exists a b, l = a ++ b /\ length a = n /\ length b = m.
Proof.
  intros H. exists (firstn n l), (skipn n l). split; [|split].
  - symmetry. apply firstn_skipn.
  - rewrite length_firstn. lia.
  - rewrite length_skipn. lia.
Qed.

Lemma u64_of_bytes (bs : list byte) :
  length bs = 8%nat -> exists v, u64 v /\ encode_u64 v = bs.
Proof.
  intros H. exists (le_combine bs). split.
  - pose proof (le_combine_bound bs) as B. rewrite H in B. exact B.
  - unfold encode_u64. rewrite <- H. apply split_le_combine.
Qed.

Lemma u64s_of_bytes (n : nat) :
  forall bs : list byte,
    length bs = (8 * n)%nat ->
    exists vs, length vs = n /\ Forall u64 vs /\ encode_u64s vs = bs.
Proof.
  induction n as [|n IH]; intros bs H.
  - exists []. destruct bs; [repeat split; constructor | discriminate].
  - destruct (take_prefix 8 (8 * n) bs) as (x & r & -> & Hx & Hr); [lia|].
    destruct (u64_of_bytes x Hx) as (v & Hv & <-).
    destruct (IH r Hr) as (vs & Hl & Hf & <-).
    exists (v :: vs). repeat split.
    + cbn. now f_equal.
    + now constructor.
Qed.

Lemma board_buffer_shape (data : list byte) :
  (32 <= length data)%nat ->
  exists tag b extra,
    length tag = 8%nat /\ wf_board b /\ data = tag ++ encodeBoard b ++ extra.
Proof.
  intros H.
  destruct (take_prefix 8 (length data - 8) data) as (tag & r1 & -> & Ht & H1);
    [lia|].
  rewrite length_app, Ht in H.
  destruct (take_prefix 8 (length r1 - 8) r1) as (p1 & r2 & -> & L1 & H2); [lia|].
  rewrite length_app, L1 in H.
  destruct (take_prefix 8 (length r2 - 8) r2) as (p2 & r3 & -> & L2 & H3); [lia|].
  rewrite length_app, L2 in H.
  destruct (take_prefix 8 (length r3 - 8) r3) as (p3 & extra & -> & L3 & H4); [lia|].
  destruct (u64_of_bytes p1 L1) as (v1 & U1 & <-).
  destruct (u64_of_bytes p2 L2) as (v2 & U2 & <-).
  destruct (u64_of_bytes p3 L3) as (v3 & U3 & <-).
  exists tag, (mkBoard v1 v2 v3), extra. split; [exact Ht|]. split.
  - split; [|split]; assumption.
  - unfold encodeBoard. cbn [roundId startSlot endSlot].
    rewrite <- !app_assoc. reflexivity.
Qed.

Lemma round_buffer_shape (data : list byte) :
  (560 <= length data)%nat ->
  exists tag a extra,
    length tag = 8%nat /\ wf_account a /\ data = tag ++ encodeRound a ++ extra.
Proof.
  intros H.
  destruct (take_prefix 8 (length data - 8) data) as (tag & r & -> & Ht & _);
    [lia|].
  rewrite length_app, Ht in H.
  destruct (take_prefix 8 (length r - 8) r) as (p1 & r1 & -> & L1 & _); [lia|].
  rewrite length_app, L1 in H.
  destruct (take_prefix 200 (length r1 - 200) r1) as (p2 & r2 & -> & L2 & _); [lia|].
  rewrite length_app, L2 in H.
  destruct (take_prefix 32 (length r2 - 32) r2) as (p3 & r3 & -> & L3 & _); [lia|].
  rewrite length_app, L3 in H.
  destruct (take_prefix 200 (length r3 - 200) r3) as (p4 & r4 & -> & L4 & _); [lia|].
  rewrite length_app, L4 in H.
  destruct (take_prefix 8 (length r4 - 8) r4) as (p5 & r5 & -> & L5 & _); [lia|].
  rewrite length_app, L5 in H.
  destruct (take_prefix 8 (length r5 - 8) r5) as (p6 & r6 & -> & L6 & _); [lia|].
  rewrite length_app, L6 in H.
  destruct (take_prefix 32 (length r6 - 32) r6) as (p7 & r7 & -> & L7 & _); [lia|].
  rewrite length_app, L7 in H.
  destruct (take_prefix 32 (length r7 - 32) r7) as (p8 & r8 & -> & L8 & _); [lia|].
  rewrite length_app, L8 in H.
  destruct (take_prefix 8 (length r8 - 8) r8) as (p9 & r9 & -> & L9 & _); [lia|].
  rewrite length_app, L9 in H.
  destruct (take_prefix 8 (length r9 - 8) r9) as (p10 & r10 & -> & L10 & _); [lia|].
  rewrite length_app, L10 in H.
  destruct (take_prefix 8 (length r10 - 8) r10) as (p11 & r11 & -> & L11 & _); [lia|].
  rewrite length_app, L11 in H.
  destruct (take_prefix 8 (length r11 - 8) r11) as (p12 & extra & -> & L12 & _); [lia|].
  destruct (u64_of_bytes p1 L1) as (v1 & U1 & <-).
  destruct (u64s_of_bytes 25 p2 L2) as (v2 & N2 & U2 & <-).
  destruct (u64s_of_bytes 25 p4 L4) as (v4 & N4 & U4 & <-).
  destruct (u64_of_bytes p5 L5) as (v5 & U5 & <-).
  destruct (u64_of_bytes p6 L6) as (v6 & U6 & <-).
  destruct (u64_of_bytes p9 L9) as (v9 & U9 & <-).
  destruct (u64_of_bytes p10 L10) as (v10 & U10 & <-).
  destruct (u64_of_bytes p11 L11) as (v11 & U11 & <-).
  destruct (u64_of_bytes p12 L12) as (v12 & U12 & <-).
  exists tag, (mkRoundAccount v1 v2 p3 v4 v5 v6 p7 p8 v9 v10 v11 v12), extra.
  split; [exact Ht|]. split.
  - unfold wf_account.
    cbn [acc_id acc_deployed acc_slot_hash acc_count acc_expires_at
         acc_motherlode acc_rent_payer acc_top_miner acc_top_miner_reward
         acc_total_deployed acc_total_vaulted acc_total_winnings].
    repeat first [assumption | split].
  - unfold encodeRound.
    cbn [acc_id acc_deployed acc_slot_hash acc_count acc_expires_at
         acc_motherlode acc_rent_payer acc_top_miner acc_top_miner_reward
         acc_total_deployed acc_total_vaulted acc_total_winnings].
    rewrite <- !app_assoc. reflexivity.
Qed.

(** ** Buffers that are too short *)

Lemma decodeBoard_short (data : list byte) :
  (length data < 32)%nat ->
  decodeBoard data
  = Throw (if (length data <? 8)%nat then InvalidBoardAccountData
           else BufferRangeError).
Proof.
  intros H. unfold decodeBoard, Buffer.readBigUInt64LE.
  destruct (length data <? 8)%nat; [reflexivity|].
  repeat match goal with
         | |- context [(?a <=? ?b)%nat] =>
             destruct (Nat.leb_spec a b); cbn [bind]
         end; try reflexivity.
  lia.
Qed.

(** One loop of [decodeRound] either throws the buffer's range error or
    ends at the expected offset, inside the buffer. *)
Lemma read_loop_cases (n : nat) (data : list byte) (off : nat) :
  read_u64_loop (S n) data off [] = Throw BufferRangeError
  \/ exists vs, read_u64_loop (S n) data off [] = Ok (vs, (off + 8 * S n)%nat)
                /\ (off + 8 * S n <= length data)%nat.
Proof.
  destruct (read_u64_loop (S n) data off []) as [[vs off']|e] eqn:E.
  - right. exists vs.
    pose proof (read_loop_offset _ _ _ _ _ _ E) as ->.
    destruct (read_loop_ok_length _ _ _ _ _ _ E); [now split | discriminate].
  - left. f_equal. eapply read_loop_throws, E.
Qed.

Lemma decodeRound_short (toStr : list byte -> string) (data : list byte) :
  (length data < 560)%nat ->
  decodeRound toStr data
  = Throw (if (length data <? 8)%nat then InvalidRoundAccountData
           else BufferRangeError).
Proof.
  intros H. unfold decodeRound.
  destruct (length data <? 8)%nat; [reflexivity|].
  unfold Buffer.readBigUInt64LE at 1.
  destruct (Nat.leb_spec (8 + 8) (length data)); cbn [bind]; [|reflexivity].
  destruct (read_loop_cases 24 data (8 + 8)) as [->|(vs & -> & L1)];
    cbn [bind]; [reflexivity|].
  destruct (read_loop_cases 24 data (8 + 8 + 8 * 25 + 32))
    as [->|(vs' & -> & L2)]; cbn [bind]; [reflexivity|].
  unfold Buffer.readBigUInt64LE.
  repeat match goal with
         | |- context [(?a <=? ?b)%nat] =>
             destruct (Nat.leb_spec a b); cbn [bind]
         end; try reflexivity.
  lia.
Qed.

(** ** The tag is not looked at *)

Section TagIndependence.

Variables t1 t2 body : list byte.
Hypothesis same_length : length t1 = length t2.

Lemma skipn_past_tag (off : nat) :
  (length t1 <= off)%nat -> skipn off (t1 ++ body) = skipn off (t2 ++ body).
Proof.
  intros H. rewrite !skipn_app, <- same_length.
  rewrite (skipn_all2 t1), (skipn_all2 t2) by lia. reflexivity.
Qed.

Lemma read_past_tag (off : nat) :
  (length t1 <= off)%nat ->
  Buffer.readBigUInt64LE (t1 ++ body) off
  = Buffer.readBigUInt64LE (t2 ++ body) off.
Proof.
  intros H. unfold Buffer.readBigUInt64LE.
  rewrite (skipn_past_tag off H), !length_app, same_length. reflexivity.
Qed.

Lemma subarray_past_tag (off stop : nat) :
  (length t1 <= off)%nat ->
  Buffer.subarray (t1 ++ body) off stop = Buffer.subarray (t2 ++ body) off stop.
Proof.
  intros H. unfold Buffer.subarray. now rewrite (skipn_past_tag off H).
Qed.

Lemma read_loop_past_tag (n : nat) :
  forall (off : nat) (acc : list Z),
    (length t1 <= off)%nat ->
    read_u64_loop n (t1 ++ body) off acc = read_u64_loop n (t2 ++ body) off acc.
Proof.
  induction n as [|n IH]; intros off acc H; [reflexivity|].
  cbn [read_u64_loop]. rewrite (read_past_tag off H).
  destruct (Buffer.readBigUInt64LE (t2 ++ body) off); cbn [bind]; [|reflexivity].
  apply IH. lia.
Qed.

Lemma decodeBoard_past_tag :
  length t1 = 8%nat -> decodeBoard (t1 ++ body) = decodeBoard (t2 ++ body).
Proof.
  intros H8. unfold decodeBoard.
  rewrite !length_app, <- same_length.
  rewrite !read_past_tag by lia. reflexivity.
Qed.

Lemma decodeRound_past_tag (toStr : list byte -> string) :
  length t1 = 8%nat ->
  decodeRound toStr (t1 ++ body) = decodeRound toStr (t2 ++ body).
Proof.
  intros H8. unfold decodeRound.
  rewrite !length_app, <- same_length.
  destruct (length t1 + length body <? 8)%nat; [reflexivity|].
  rewrite (read_past_tag 8) by lia.
  destruct (Buffer.readBigUInt64LE (t2 ++ body) 8); cbn [bind]; [|reflexivity].
  rewrite read_loop_past_tag by lia.
  destruct (read_u64_loop 25 (t2 ++ body) (8 + 8) []) as [[d o]|] eqn:E;
    cbn [bind]; [|reflexivity].
  apply read_loop_offset in E. subst o.
  rewrite read_loop_past_tag by lia.
  destruct (read_u64_loop 25 (t2 ++ body) (8 + 8 + 8 * 25 + 32) [])
    as [[c o]|] eqn:E; cbn [bind]; [|reflexivity].
  apply read_loop_offset in E. subst o.
  rewrite !read_past_tag by lia.
  rewrite !subarray_past_tag by lia.
  reflexivity.
Qed.

End TagIndependence.

(** ** Signs of rounded numbers *)

Lemma shr_1_nonneg (mrs : shr_record) :
  0 <= shr_m mrs -> 0 <= shr_m (shr_1 mrs).
Proof.
  destruct mrs as [m r s]. cbn [shr_m]. intros H.
  destruct m as [|p|p]; [cbn; lia| |lia].
  destruct p; cbn; lia.
Qed.

Lemma iter_shr_1_nonneg (p : positive) :
  forall mrs, 0 <= shr_m mrs -> 0 <= shr_m (iter_pos shr_1 p mrs).
Proof.
  induction p as [p IH|p IH|]; intros mrs H; cbn [iter_pos].
  - apply IH, IH, shr_1_nonneg, H.
  - apply IH, IH, H.
  - apply shr_1_nonneg, H.
Qed.

Lemma shr_fexp_nonneg (m e : Z) (l : location) :
  0 <= m -> 0 <= shr_m (fst (shr_fexp Js.prec Js.emax m e l)).
Proof.
  intros H. unfold shr_fexp, shr.
  assert (H0 : 0 <= shr_m (shr_record_of_loc m l))
    by (destruct l as [|[| |]]; exact H).
  destruct (fexp Js.prec Js.emax (Zdigits2 m + e) - e); cbn [fst]; trivial.
  apply iter_shr_1_nonneg, H0.
Qed.

Lemma round_nearest_even_nonneg (m : Z) (l : location) :
  0 <= m -> 0 <= round_nearest_even m l.
Proof.
  intros H. destruct l as [|[| |]]; cbn; try lia.
  destruct (Z.even m); lia.
Qed.

Lemma binary_round_aux_sign (sx : bool) (mx ex : Z) (lx : location) :
  0 <= mx -> has_sign sx (binary_round_aux Js.prec Js.emax sx mx ex lx).
Proof.
  intros H. unfold binary_round_aux.
  pose proof (shr_fexp_nonneg mx ex lx H) as H1.
  destruct (shr_fexp Js.prec Js.emax mx ex lx) as [mrs' e']. cbn [fst] in H1.
  pose proof (shr_fexp_nonneg _ e' loc_Exact
                (round_nearest_even_nonneg _ (loc_of_shr_record mrs') H1)) as H2.
  destruct (shr_fexp Js.prec Js.emax
              (round_nearest_even (shr_m mrs') (loc_of_shr_record mrs')) e'
              loc_Exact) as [mrs'' e'']. cbn [fst] in H2.
  destruct (shr_m mrs'') as [|p|p]; [reflexivity| |lia].
  destruct (e'' <=? Js.emax - Js.prec); reflexivity.
Qed.

Lemma binary_round_sign (sx : bool) (m : positive) (e : Z) :
  has_sign sx (binary_round Js.prec Js.emax sx m e).
Proof.
  unfold binary_round.
  destruct (shl_align m e (fexp Js.prec Js.emax (Z.pos (digits2_pos m) + e)))
    as [mz ez].
  apply binary_round_aux_sign. lia.
Qed.

Lemma Number_negative (z : Z) : z < 0 -> has_sign true (Js.Number z).
Proof.
  intros H. destruct z as [|p|p]; try lia.
  apply binary_round_sign.
Qed.

Lemma Number_positive (z : Z) : 0 < z -> has_sign false (Js.Number z).
Proof.
  intros H. destruct z as [|p|p]; try lia.
  apply binary_round_sign.
Qed.

Lemma mul_SECONDS_PER_SLOT_sign (s : bool) (x : spec_float) :
  has_sign s x -> has_sign s (Js.mul x CONSTANTS.SECONDS_PER_SLOT).
Proof.
  destruct x as [s'|s'| |s' m e]; cbn [has_sign]; intros H; try contradiction;
    subst s'; unfold Js.mul, CONSTANTS.SECONDS_PER_SLOT; cbn [SFmul has_sign].
  - apply xorb_false_r.
  - apply xorb_false_r.
  - rewrite xorb_false_r. apply binary_round_aux_sign. lia.
Qed.

Lemma Math_floor_sign (s : bool) (x : spec_float) :
  has_sign s x -> has_sign s (Js.Math_floor x).
Proof.
  destruct x as [s'|s'| |s' m e]; cbn [has_sign Js.Math_floor]; trivial.
  intros ->. destruct e as [|p|p]; cbn [has_sign]; trivial.
  assert (Hpow : 0 < 2 ^ (- Z.neg p)) by (apply Z.pow_pos_nonneg; lia).
  destruct s; cbn [cond_Zopp].
  - assert (Hq : - Z.pos m / 2 ^ (- Z.neg p) < 0)
      by (apply Z.div_lt_upper_bound; lia).
    destruct (- Z.pos m / 2 ^ (- Z.neg p)) as [|q|q]; try lia.
    apply binary_round_sign.
  - assert (Hq : 0 <= Z.pos m / 2 ^ (- Z.neg p))
      by (apply Z.div_pos; lia).
    destruct (Z.pos m / 2 ^ (- Z.neg p)) as [|q|q]; try lia.
    + reflexivity.
    + apply binary_round_sign.
Qed.

Lemma Math_max_zero_negative (x : spec_float) :
  has_sign true x -> Js.Math_max (Js.Number 0) x = S754_zero false.
Proof.
  destruct x as [s|s| |s m e]; cbn [has_sign]; intros H; try contradiction;
    subst s; reflexivity.
Qed.

Lemma Math_max_zero_nonneg (x : spec_float) :
  x <> S754_nan -> Js.nonneg (Js.Math_max (Js.Number 0) x) = true.
Proof.
  destruct x as [s|s| |s m e]; intros H; try congruence; destruct s; reflexivity.
Qed.

Lemma has_sign_not_nan (s : bool) (x : spec_float) :
  has_sign s x -> x <> S754_nan.
Proof. destruct x; cbn; congruence. Qed.

(** ** Integers below 2^53 as numbers, and the round-id buffer *)

Lemma digits2_pos_size (m : positive) : digits2_pos m = Pos.size m.
Proof. induction m; cbn; congruence. Qed.

Lemma digits2_pos_iter (k m : positive) :
  digits2_pos (Pos.iter xO m k) = (digits2_pos m + k)%positive.
Proof.
  induction k as [|k IH] using Pos.peano_ind.
  - cbn. lia.
  - rewrite Pos.iter_succ. cbn [digits2_pos]. rewrite IH. lia.
Qed.

Lemma Zpos_iter_xO (k m : positive) :
  Z.pos (Pos.iter xO m k) = Z.pos m * 2 ^ Z.pos k.
Proof.
  induction k as [|k IH] using Pos.peano_ind.
  - cbn. lia.
  - rewrite Pos.iter_succ, Pos2Z.inj_xO, IH, Pos2Z.inj_succ, Z.pow_succ_r by lia.
    lia.
Qed.

Lemma digits2_pos_bound (m : positive) (n : Z) :
  0 <= n -> Z.pos m < 2 ^ n -> Z.pos (digits2_pos m) <= n.
Proof.
  intros Hn H. rewrite digits2_pos_size.
  destruct (Z.le_gt_cases (Z.pos (Pos.size m)) n) as [|Hgt]; trivial.
  exfalso.
  pose proof (Pos.size_le m) as Hle.
  assert (2 ^ Z.pos (Pos.size m) <= 2 * Z.pos m).
  { rewrite <- Pos2Z.inj_pow. change (2 * Z.pos m) with (Z.pos m~0). lia. }
  assert (2 ^ (n + 1) <= 2 ^ Z.pos (Pos.size m))
    by (apply Z.pow_le_mono_r; lia).
  rewrite Z.pow_add_r in * by lia. lia.
Qed.

Lemma binary_round_aux_canonical (s : bool) (m : positive) (e : Z) :
  digits2_pos m = 53%positive -> -1074 <= e <= 971 ->
  binary_round_aux Js.prec Js.emax s (Z.pos m) e loc_Exact = S754_finite s m e.
Proof.
  intros Hd He.
  assert (Hs : shr_fexp Js.prec Js.emax (Z.pos m) e loc_Exact
               = (Build_shr_record (Z.pos m) false false, e)).
  { unfold shr_fexp. cbn [Zdigits2]. rewrite Hd.
    replace (fexp Js.prec Js.emax (53 + e) - e) with 0
      by (unfold fexp, emin, Js.prec, Js.emax; lia).
    reflexivity. }
  unfold binary_round_aux. rewrite Hs. cbn [shr_m loc_of_shr_record round_nearest_even].
  rewrite Hs. cbn [shr_m].
  replace (e <=? Js.emax - Js.prec) with true
    by (symmetry; apply Z.leb_le; unfold Js.prec, Js.emax; lia).
  reflexivity.
Qed.

Lemma binary_round_small (s : bool) (m : positive) :
  Z.pos m < 2 ^ 53 ->
  exists mz ez,
    binary_round Js.prec Js.emax s m 0 = S754_finite s mz ez
    /\ ez = Z.pos (digits2_pos m) - 53
    /\ -52 <= ez <= 0 /\ Z.pos mz = Z.pos m * 2 ^ (- ez)
    /\ digits2_pos mz = 53%positive.
Proof.
  intros H. pose proof (digits2_pos_bound m 53 ltac:(lia) H) as Hd.
  unfold binary_round.
  replace (fexp Js.prec Js.emax (Z.pos (digits2_pos m) + 0))
    with (Z.pos (digits2_pos m) - 53)
    by (unfold fexp, emin, Js.prec, Js.emax; lia).
  unfold shl_align. rewrite Z.sub_0_r.
  destruct (Z.pos (digits2_pos m) - 53) as [|k|k] eqn:E; try lia.
  - exists m, 0. split; [|split; [lia|split; [lia|split; [cbn; lia|lia]]]].
    apply binary_round_aux_canonical; lia.
  - exists (Pos.iter xO m k), (Z.neg k).
    assert (Hdk : digits2_pos (Pos.iter xO m k) = 53%positive)
      by (rewrite digits2_pos_iter; lia).
    split; [|split; [lia|split; [lia|split; [|exact Hdk]]]].
    + apply binary_round_aux_canonical; [exact Hdk|lia].
    + rewrite Zpos_iter_xO. reflexivity.
Qed.

Lemma trunc_finite_scaled (s : bool) (mz : positive) (ez m : Z) :
  ez <= 0 -> Z.pos mz = m * 2 ^ (- ez) ->
  Js.trunc (S754_finite s mz ez) = cond_Zopp s m.
Proof.
  intros He Hm. cbn [Js.trunc]. f_equal.
  destruct ez as [|p|p]; try lia.
  rewrite Hm. apply Z.div_mul. apply Z.pow_nonzero; lia.
Qed.

Lemma trunc_Number (z : Z) : - 2 ^ 53 < z < 2 ^ 53 -> Js.trunc (Js.Number z) = z.
Proof.
  intros H. destruct z as [|m|m]; [reflexivity| |].
  - destruct (binary_round_small false m) as (mz & ez & E & _ & He & Hm & _); [lia|].
    unfold Js.Number, binary_normalize. rewrite E.
    now rewrite (trunc_finite_scaled false mz ez (Z.pos m)) by lia.
  - destruct (binary_round_small true m) as (mz & ez & E & _ & He & Hm & _); [lia|].
    unfold Js.Number, binary_normalize. rewrite E.
    now rewrite (trunc_finite_scaled true mz ez (Z.pos m)) by lia.
Qed.

Lemma ToInt32_Number (z : Z) :
  - 2 ^ 53 < z < 2 ^ 53 ->
  Js.ToInt32 (Js.Number z)
  = if 2 ^ 31 <=? z mod 2 ^ 32 then z mod 2 ^ 32 - 2 ^ 32 else z mod 2 ^ 32.
Proof.
  intros H. unfold Js.ToInt32, Js.ToUint32. now rewrite trunc_Number.
Qed.

Lemma low_word (z : Z) :
  0 <= z < 2 ^ 53 ->
  Js.bitand (Js.Number z) (Js.Number 4294967295)
  = Js.Number (if 2 ^ 31 <=? z mod 2 ^ 32 then z mod 2 ^ 32 - 2 ^ 32
               else z mod 2 ^ 32).
Proof.
  intros H. unfold Js.bitand. rewrite ToInt32_Number by lia.
  replace (Js.ToInt32 (Js.Number 4294967295)) with (-1)
    by (vm_compute; reflexivity).
  now rewrite Z.land_m1_r.
Qed.

Lemma writeUInt32LE_negative (buf : list byte) (z : Z) (off : nat) :
  - 2 ^ 53 < z < 0 ->
  Buffer.writeUInt32LE buf (Js.Number z) off = Throw BufferRangeError.
Proof.
  intros H. destruct z as [|m|m]; try lia.
  destruct (binary_round_small true m) as (mz & ez & E & _); [lia|].
  assert (EN : Js.Number (Z.neg m) = S754_finite true mz ez) by exact E.
  unfold Buffer.writeUInt32LE. rewrite EN.
  replace (SFltb (S754_finite true mz ez) (Js.Number 0)) with true
    by reflexivity.
  now rewrite orb_true_r.
Qed.

(** Ids whose low word has its top bit set: the first write throws. *)
Lemma roundSeeds_throws (z : Z) :
  0 <= z < 2 ^ 53 -> 2 ^ 31 <= z mod 2 ^ 32 ->
  roundSeeds z = Throw BufferRangeError.
Proof.
  intros Hz Hlow. unfold roundSeeds, roundIdBuffer.
  rewrite low_word by exact Hz.
  replace (2 ^ 31 <=? z mod 2 ^ 32) with true by (symmetry; apply Z.leb_le; lia).
  rewrite writeUInt32LE_negative; [reflexivity|].
  pose proof (Z.mod_pos_bound z (2 ^ 32) ltac:(lia)). lia.
Qed.

Lemma digits2_pos_lower (m : positive) :
  2 ^ (Z.pos (digits2_pos m) - 1) <= Z.pos m.
Proof.
  rewrite digits2_pos_size.
  pose proof (Pos.size_le m) as Hle.
  assert (H : 2 ^ Z.pos (Pos.size m) <= 2 * Z.pos m).
  { rewrite <- Pos2Z.inj_pow. change (2 * Z.pos m) with (Z.pos m~0). lia. }
  replace (Z.pos (Pos.size m)) with (Z.pos (Pos.size m) - 1 + 1) in H by lia.
  rewrite Z.pow_add_r in H by lia. lia.
Qed.

Lemma writeUInt32LE_word (buf : list byte) (v : Z) (off : nat) :
  0 <= v < 2 ^ 32 -> (off + 4 <= length buf)%nat ->
  Buffer.writeUInt32LE buf (Js.Number v) off
  = Ok (firstn off buf ++ le_split 4 v ++ skipn (off + 4) buf).
Proof.
  intros Hv Hoff. unfold Buffer.writeUInt32LE.
  replace (length buf <? off + 4)%nat with false
    by (symmetry; apply Nat.ltb_ge; lia).
  assert (Ht : Js.ToUint32 (Js.Number v) = v).
  { unfold Js.ToUint32. rewrite trunc_Number by lia. apply Z.mod_small. lia. }
  rewrite Ht.
  destruct v as [|m|m]; [reflexivity| |lia].
  destruct (binary_round_small false m) as (mz & ez & E & Hez & He & Hm & Hd);
    [lia|].
  assert (EN : Js.Number (Z.pos m) = S754_finite false mz ez) by exact E.
  rewrite EN.
  replace (SFltb (S754_finite false mz ez) (Js.Number 0)) with false
    by reflexivity.
  rewrite orb_false_r.
  replace (Js.Number 4294967295)
    with (S754_finite false 9007199252643840 (-21)) by (vm_compute; reflexivity).
  assert (Hdm : Z.pos (digits2_pos m) <= 32)
    by (apply digits2_pos_bound; lia).
  unfold SFltb, SFcompare.
  destruct (Z.compare_spec (-21) ez) as [Heq|Hlt|Hgt]; [|lia|reflexivity].
  clear Hez. subst ez. rewrite Pos.compare_cont_spec. cbn [Pos.switch_Eq].
  destruct (Pos.compare_spec 9007199252643840 mz) as [|Hlt|]; try reflexivity.
  exfalso. change (2 ^ (- -21)) with 2097152 in Hm.
  change (2 ^ 32) with 4294967296 in Hv. lia.
Qed.

Lemma div_by_word (mz : positive) (ez : Z) :
  digits2_pos mz = 53%positive -> -52 <= ez <= 0 ->
  Js.div (S754_finite false mz ez) (Js.Number 4294967296)
  = S754_finite false mz (ez - 32).
Proof.
  intros Hd He.
  replace (Js.Number 4294967296)
    with (S754_finite false 4503599627370496 (-20)) by (vm_compute; reflexivity).
  unfold Js.div, SFdiv. cbn [xorb].
  assert (Hcore : SFdiv_core_binary Js.prec Js.emax (Z.pos mz) ez
                    4503599627370496 (-20)
                  = (Z.pos mz~0, ez - 33, loc_Exact)).
  { unfold SFdiv_core_binary. cbn [Zdigits2]. rewrite Hd.
    change (digits2_pos 4503599627370496) with 53%positive.
    replace (Z.min (fexp Js.prec Js.emax (53 + ez - (53 + -20))) (ez - -20))
      with (ez - 33) by (unfold fexp, emin, Js.prec, Js.emax; lia).
    replace (ez - -20 - (ez - 33)) with 53 by lia.
    assert (Hq : Z.div_eucl (Z.shiftl (Z.pos mz) 53) 4503599627370496
                 = (Z.pos mz~0, 0)).
    { pose proof (Z.div_eucl_eq (Z.shiftl (Z.pos mz) 53) 4503599627370496
                    ltac:(lia)) as Heq.
      pose proof (Z.mod_pos_bound (Z.shiftl (Z.pos mz) 53) 4503599627370496
                    ltac:(lia)) as Hb.
      unfold Z.modulo in Hb.
      destruct (Z.div_eucl (Z.shiftl (Z.pos mz) 53) 4503599627370496) as [q r].
      rewrite Z.shiftl_mul_pow2 in Heq by lia.
      change (2 ^ 53) with 9007199254740992 in Heq.
      assert (q = Z.pos mz~0 /\ r = 0) as [-> ->] by lia. reflexivity. }
    rewrite Hq. reflexivity. }
  rewrite Hcore.
  assert (Hs1 : shr_fexp Js.prec Js.emax (Z.pos mz~0) (ez - 33) loc_Exact
                = (Build_shr_record (Z.pos mz) false false, ez - 32)).
  { unfold shr_fexp. cbn [Zdigits2 digits2_pos]. rewrite Hd.
    replace (fexp Js.prec Js.emax (Z.pos (Pos.succ 53) + (ez - 33)) - (ez - 33))
      with 1 by (unfold fexp, emin, Js.prec, Js.emax; lia).
    cbn. f_equal. lia. }
  assert (Hs2 : shr_fexp Js.prec Js.emax (Z.pos mz) (ez - 32) loc_Exact
                = (Build_shr_record (Z.pos mz) false false, ez - 32)).
  { unfold shr_fexp. cbn [Zdigits2]. rewrite Hd.
    replace (fexp Js.prec Js.emax (53 + (ez - 32)) - (ez - 32)) with 0
      by (unfold fexp, emin, Js.prec, Js.emax; lia).
    reflexivity. }
  unfold binary_round_aux. rewrite Hs1.
  cbn [shr_m loc_of_shr_record round_nearest_even]. rewrite Hs2. cbn [shr_m].
  replace (ez - 32 <=? Js.emax - Js.prec) with true
    by (symmetry; apply Z.leb_le; unfold Js.prec, Js.emax; lia).
  reflexivity.
Qed.

Lemma high_word (z : Z) :
  0 <= z < 2 ^ 53 ->
  Js.Math_floor (Js.div (Js.Number z) (Js.Number 4294967296))
  = Js.Number (z / 2 ^ 32).
Proof.
  intros H. destruct z as [|m|m]; [reflexivity| |lia].
  destruct (binary_round_small false m) as (mz & ez & E & _ & He & Hm & Hd);
    [lia|].
  assert (EN : Js.Number (Z.pos m) = S754_finite false mz ez) by exact E.
  rewrite EN, div_by_word by assumption.
  unfold Js.Math_floor, Js.Number.
  destruct (ez - 32) as [|p|p] eqn:Ep; try lia.
  cbn [cond_Zopp]. f_equal.
  rewrite Hm, <- Ep.
  replace (- (ez - 32)) with (32 + - ez) by lia.
  rewrite Z.pow_add_r by lia.
  apply Z.div_mul_cancel_r; apply Z.pow_nonzero; lia.
Qed.

Lemma le_split_words (z : Z) :
  le_split 4 (z mod 2 ^ 32) ++ le_split 4 (z / 2 ^ 32) = le_split 8 z.
Proof.
  apply le_combine_inj.
  - rewrite length_app, !length_le_split. reflexivity.
  - rewrite le_combine_app, !le_combine_split, length_le_split.
    change (Z.of_nat 4 * 8) with 32.
    rewrite Z.mod_mod by lia.
    rewrite Z.shiftl_mul_pow2 by lia.
    assert (Hland : Z.land (z mod 2 ^ 32) ((z / 2 ^ 32) mod 2 ^ 32 * 2 ^ 32) = 0).
    { apply Z.bits_inj'. intros n Hn. rewrite Z.land_spec, Z.bits_0.
      destruct (Z.lt_ge_cases n 32).
      - rewrite Z.mul_pow2_bits_low by lia. apply andb_false_r.
      - rewrite Z.mod_pow2_bits_high by lia. reflexivity. }
    rewrite <- (Z.lxor_lor _ _ Hland), <- (Z.add_nocarry_lxor _ _ Hland).
    change (2 ^ (Z.of_nat 8 * 8)) with (2 ^ 32 * 2 ^ 32).
    rewrite (Z.rem_mul_r z) by lia. lia.
Qed.

(** What [getRoundPDA] hands to the address search for every id below
    2^53: the label and the id's eight little-endian bytes when bit 31 of
    the id is clear, and an exception when it is set. *)
Lemma roundSeeds_below_2_53 (z : Z) :
  0 <= z < 2 ^ 53 ->
  roundSeeds z
  = if 2 ^ 31 <=? z mod 2 ^ 32 then Throw BufferRangeError
    else Ok [SEEDS.ROUND; encode_u64 z].
Proof.
  intros Hz. destruct (Z.leb_spec (2 ^ 31) (z mod 2 ^ 32)) as [Hlow|Hlow].
  - apply roundSeeds_throws; assumption.
  - unfold roundSeeds, roundIdBuffer.
    rewrite low_word, high_word by exact Hz.
    replace (2 ^ 31 <=? z mod 2 ^ 32) with false
      by (symmetry; apply Z.leb_gt; lia).
    pose proof (Z.mod_pos_bound z (2 ^ 32) ltac:(lia)) as Hb.
    rewrite (writeUInt32LE_word (Buffer.alloc 8) (z mod 2 ^ 32) 0 Hb)
      by (cbn; lia).
    cbn [bind].
    rewrite writeUInt32LE_word.
    + cbn [bind]. do 3 f_equal. unfold encode_u64.
      rewrite <- le_split_words. reflexivity.
    + split; [apply Z.div_pos; lia|].
      apply Z.div_lt_upper_bound; [lia|].
      change (2 ^ 32 * 2 ^ 32) with 18446744073709551616.
      change (2 ^ 53) with 9007199254740992 in Hz. lia.
    + rewrite !length_app, length_le_split. cbn. lia.
Qed.

(** ** One run of [fetchData] *)

Section FetchData.

Context {PublicKey : Type}.
Variable find : list (list byte) -> result PublicKey.
Variable toStr : list byte -> string.
Variable connection : Connection PublicKey.

Lemma fetchBoard_needs_address (e : Exn) :
  getBoardPDA find = Throw e -> fetchBoard find connection = Throw e.
Proof. unfold fetchBoard. now intros ->. Qed.

Lemma fetchBoard_has_address (b : Board) :
  fetchBoard find connection = Ok b -> exists pda, getBoardPDA find = Ok pda.
Proof.
  unfold fetchBoard. destruct (getBoardPDA find) as [pda|]; [eauto|discriminate].
Qed.

Lemma fetchRound_needs_address (roundId : Z) (e : Exn) :
  getRoundPDA find roundId = Throw e ->
  fetchRound find toStr connection roundId = Throw e.
Proof. unfold fetchRound. now intros ->. Qed.

Lemma fetchRound_has_address (roundId : Z) (r : Round) :
  fetchRound find toStr connection roundId = Ok r ->
  exists pda, getRoundPDA find roundId = Ok pda.
Proof.
  unfold fetchRound.
  destruct (getRoundPDA find roundId) as [pda|]; [eauto|discriminate].
Qed.

Ltac run_fetchData :=
  unfold fetchData, try_catch_finally, fetchData_try, eff_bind, update, await.

Lemma fetchData_board_failed (s : HomeState) (e : Exn) :
  fetchBoard find connection = Throw e ->
  fetchData find toStr connection s
  = (Ok tt, mkHome (board s) (round s) false (Some e), states_board_failed s e).
Proof.
  intros H. run_fetchData.
  destruct (getBoardPDA find) as [pda|e0] eqn:Hg.
  - rewrite H. reflexivity.
  - rewrite (fetchBoard_needs_address e0 Hg) in H. inversion H. reflexivity.
Qed.

Lemma fetchData_round_failed (s : HomeState) (b : Board) (e : Exn) :
  fetchBoard find connection = Ok b ->
  fetchRound find toStr connection (roundId b) = Throw e ->
  fetchData find toStr connection s
  = (Ok tt, mkHome (Some b) (round s) false (Some e),
     states_round_failed s b e).
Proof.
  intros Hb Hr. run_fetchData.
  destruct (fetchBoard_has_address b Hb) as (pda & ->). rewrite Hb.
  destruct (getRoundPDA find (roundId b)) as [pda'|e0] eqn:Hg.
  - rewrite Hr. reflexivity.
  - rewrite (fetchRound_needs_address _ e0 Hg) in Hr. inversion Hr. reflexivity.
Qed.

Lemma fetchData_success (s : HomeState) (b : Board) (r : Round) :
  fetchBoard find connection = Ok b ->
  fetchRound find toStr connection (roundId b) = Ok r ->
  fetchData find toStr connection s
  = (Ok tt, mkHome (Some b) (Some r) false None, states_success s b r).
Proof.
  intros Hb Hr. run_fetchData.
  destruct (fetchBoard_has_address b Hb) as (pda & ->). rewrite Hb.
  destruct (fetchRound_has_address _ r Hr) as (pda' & ->). rewrite Hr.
  reflexivity.
Qed.

End FetchData.

(** * The claims *)

(** ** Decoding *)

Lemma sample_account_wf (id : Z) : u64 id -> wf_account (Sample.account id).
Proof.
  intros H. unfold wf_account, Sample.account.
  cbn [acc_id acc_deployed acc_slot_hash acc_count acc_expires_at
       acc_motherlode acc_rent_payer acc_top_miner acc_top_miner_reward
       acc_total_deployed acc_total_vaulted acc_total_winnings].
  repeat match goal with
         | |- _ /\ _ => split
         | |- u64 id => exact H
         | |- u64 _ => unfold u64; lia
         | |- length _ = _ => reflexivity
         | |- Forall _ _ => cbn [map seq repeat Z.of_nat]; repeat constructor
         end; unfold u64; cbn; lia.
Qed.

Lemma sample_board_wf : wf_board Sample.board7.
Proof. unfold wf_board, u64. cbn. lia. Qed.

(** C1, as amended: the child body is 552 bytes, not 608.  For both record
    kinds, a buffer made of an 8-byte tag followed by the fields in
    declared order (each a little-endian 64-bit integer or a 32-byte
    block) has the fixed length 32 (parent, 8 + 24) or 560 (child,
    8 + 552), and decoding it, with or without bytes after the last
    field, returns exactly the encoded field values, the two identity
    blocks as the key rendering of exactly their 32 bytes.  Every buffer
    of at least that length is such a buffer, so the decoder reads every
    sufficiently long buffer this way.  When the key rendering is
    injective, as base 58 is, the decoded round determines every encoded
    field. *)
Theorem decode_roundtrip (toStr : list byte -> string) :
  (forall tag extra b,
      length tag = 8%nat -> wf_board b ->
      length (tag ++ encodeBoard b) = 32%nat
      /\ decodeBoard (tag ++ encodeBoard b ++ extra) = Ok b)
  /\ (forall tag extra a,
         length tag = 8%nat -> wf_account a ->
         length (tag ++ encodeRound a) = 560%nat
         /\ decodeRound toStr (tag ++ encodeRound a ++ extra)
            = Ok (Round_of_account toStr a))
  /\ (forall data,
         (32 <= length data)%nat ->
         exists tag b extra,
           length tag = 8%nat /\ wf_board b
           /\ data = tag ++ encodeBoard b ++ extra)
  /\ (forall data,
         (560 <= length data)%nat ->
         exists tag a extra,
           length tag = 8%nat /\ wf_account a
           /\ data = tag ++ encodeRound a ++ extra)
  /\ ((forall k1 k2, toStr k1 = toStr k2 -> k1 = k2) ->
      forall tag1 tag2 extra1 extra2 a1 a2,
        length tag1 = 8%nat -> length tag2 = 8%nat ->
        wf_account a1 -> wf_account a2 ->
        decodeRound toStr (tag1 ++ encodeRound a1 ++ extra1)
        = decodeRound toStr (tag2 ++ encodeRound a2 ++ extra2) ->
        a1 = a2).
Proof.
  split; [|split; [|split; [|split]]].
  - intros tag extra b Ht Hb. split.
    + rewrite length_app, length_encodeBoard, Ht. reflexivity.
    + apply decodeBoard_encode; assumption.
  - intros tag extra a Ht Ha. split.
    + rewrite length_app, (length_encodeRound a Ha), Ht. reflexivity.
    + apply decodeRound_encode; assumption.
  - apply board_buffer_shape.
  - apply round_buffer_shape.
  - intros Hinj tag1 tag2 extra1 extra2 a1 a2 Ht1 Ht2 Ha1 Ha2 H.
    rewrite !decodeRound_encode in H by assumption.
    destruct a1, a2. unfold Round_of_account in H. cbn in H.
    inversion H; subst. f_equal; apply Hinj; assumption.
Qed.

Lemma key_text_injective (k1 k2 : list byte) :
  Sample.key_text k1 = Sample.key_text k2 -> k1 = k2.
Proof.
  unfold Sample.key_text. intros H.
  rewrite <- (list_byte_of_string_of_list_byte k1),
          <- (list_byte_of_string_of_list_byte k2).
  now f_equal.
Qed.

Lemma decode_roundtrip_witness :
  (length Sample.tag = 8%nat /\ wf_board Sample.board7
   /\ decodeBoard (Sample.tag ++ encodeBoard Sample.board7 ++ []) = Ok Sample.board7)
  /\ (length Sample.tag = 8%nat /\ wf_account (Sample.account 7)
      /\ decodeRound Sample.key_text
           (Sample.tag ++ encodeRound (Sample.account 7) ++ [])
         = Ok (Sample.round 7))
  /\ ((forall k1 k2, Sample.key_text k1 = Sample.key_text k2 -> k1 = k2)
      /\ (decodeRound Sample.key_text
            (Sample.tag ++ encodeRound (Sample.account 7) ++ [])
          = decodeRound Sample.key_text
              (Sample.other_tag ++ encodeRound (Sample.account 7)
                 ++ [Byte.x00]) ->
          Sample.account 7 = Sample.account 7)).
Proof.
  destruct (decode_roundtrip Sample.key_text) as (HB & HR & _ & _ & HI).
  assert (U7 : u64 7) by (unfold u64; lia).
  split; [|split].
  3:{ split; [exact key_text_injective|].
      exact (HI key_text_injective Sample.tag Sample.other_tag [] [Byte.x00]
               (Sample.account 7) (Sample.account 7) eq_refl eq_refl
               (sample_account_wf 7 U7) (sample_account_wf 7 U7)). }
  - split; [reflexivity|]. split; [exact sample_board_wf|].
    exact (proj2 (HB Sample.tag [] Sample.board7 eq_refl sample_board_wf)).
  - split; [reflexivity|]. split; [exact (sample_account_wf 7 U7)|].
    exact (proj2 (HR Sample.tag [] (Sample.account 7) eq_refl
                    (sample_account_wf 7 U7))).
Defined.

(** C1, as stated, fails on the child's length: the fields the claim
    lists, written in order for a well-formed round, fill 552 bytes after
    the tag, so the buffer is 560 bytes long, not 616; it decodes to the
    encoded values. *)
Lemma child_record_is_560_bytes :
  wf_account (Sample.account 7)
  /\ length (Sample.tag ++ encodeRound (Sample.account 7)) = 560%nat
  /\ length (Sample.tag ++ encodeRound (Sample.account 7)) <> (8 + 608)%nat
  /\ decodeRound Sample.key_text (Sample.tag ++ encodeRound (Sample.account 7))
     = Ok (Sample.round 7).
Proof.
  split; [apply sample_account_wf; unfold u64; lia|].
  split; [reflexivity|]. split; [vm_compute; discriminate|].
  vm_compute. reflexivity.
Qed.

(** C7, as amended: every buffer shorter than the minimum length (32
    bytes for the parent, 560 for the child) makes the decoder fail, and
    never yields a record: with the invalid-account-data error when fewer
    than the 8 tag bytes are present, and with the buffer's range error,
    raised by the first read that does not fit, otherwise. *)
Theorem decode_too_short (toStr : list byte -> string) (data : list byte) :
  ((length data < 32)%nat ->
   decodeBoard data
   = Throw (if (length data <? 8)%nat then InvalidBoardAccountData
            else BufferRangeError))
  /\ ((length data < 560)%nat ->
      decodeRound toStr data
      = Throw (if (length data <? 8)%nat then InvalidRoundAccountData
               else BufferRangeError)).
Proof.
  split; [apply decodeBoard_short | apply decodeRound_short].
Qed.

Lemma decode_too_short_witness :
  (length (repeat Byte.x00 31) < 32)%nat
  /\ decodeBoard (repeat Byte.x00 31) = Throw BufferRangeError
  /\ (length (repeat Byte.x00 559) < 560)%nat
  /\ decodeRound Sample.key_text (repeat Byte.x00 559) = Throw BufferRangeError.
Proof.
  assert (H1 : (length (repeat Byte.x00 31) < 32)%nat) by (vm_compute; lia).
  assert (H2 : (length (repeat Byte.x00 559) < 560)%nat) by (vm_compute; lia).
  split; [exact H1|]. split.
  - exact (proj1 (decode_too_short Sample.key_text (repeat Byte.x00 31)) H1).
  - split; [exact H2|].
    exact (proj2 (decode_too_short Sample.key_text (repeat Byte.x00 559)) H2).
Defined.

(** C7, as stated, fails twice: a child buffer of 560 bytes is shorter
    than 616 and decodes; and a buffer of 4 bytes does not get the error
    of a buffer that is too short for a field (the one an 8-byte buffer
    gets) but the invalid-account-data error. *)
Lemma short_buffer_counterexample :
  ((length (Sample.round_bytes 7) < 616)%nat
   /\ decodeRound Sample.key_text (Sample.round_bytes 7) = Ok (Sample.round 7))
  /\ decodeBoard (repeat Byte.x00 4) = Throw InvalidBoardAccountData
  /\ decodeBoard (repeat Byte.x00 8) = Throw BufferRangeError
  /\ InvalidBoardAccountData <> BufferRangeError.
Proof.
  split; [split; [vm_compute; lia | vm_compute; reflexivity]|].
  split; [reflexivity|]. split; [reflexivity|discriminate].
Qed.

(** C8: a zero-length buffer makes the decoder of either kind fail with
    its invalid-account-data error, raised by the length guard before any
    field is read; this is a different error from the range error that a
    buffer too short for its fields gets. *)
Theorem decode_empty (toStr : list byte -> string) :
  decodeBoard [] = Throw InvalidBoardAccountData
  /\ decodeRound toStr [] = Throw InvalidRoundAccountData
  /\ decodeBoard (repeat Byte.x00 8) = Throw BufferRangeError
  /\ decodeRound toStr (repeat Byte.x00 8) = Throw BufferRangeError
  /\ InvalidBoardAccountData <> BufferRangeError
  /\ InvalidRoundAccountData <> BufferRangeError.
Proof.
  repeat split; try reflexivity; discriminate.
Qed.

(** C9: two buffers that differ only in their first 8 bytes decode to
    the same result, for both record kinds: the decoder checks that the
    tag is there and never looks at its value. *)
Theorem decode_ignores_tag (toStr : list byte -> string)
    (tag1 tag2 body : list byte) :
  length tag1 = 8%nat -> length tag2 = 8%nat ->
  decodeBoard (tag1 ++ body) = decodeBoard (tag2 ++ body)
  /\ decodeRound toStr (tag1 ++ body) = decodeRound toStr (tag2 ++ body).
Proof.
  intros H1 H2. split.
  - apply decodeBoard_past_tag; congruence.
  - apply decodeRound_past_tag; congruence.
Qed.

Lemma decode_ignores_tag_witness :
  length Sample.tag = 8%nat /\ length Sample.other_tag = 8%nat
  /\ decodeBoard (Sample.tag ++ encodeRound (Sample.account 7))
     = decodeBoard (Sample.other_tag ++ encodeRound (Sample.account 7))
  /\ decodeRound Sample.key_text (Sample.tag ++ encodeRound (Sample.account 7))
     = decodeRound Sample.key_text
         (Sample.other_tag ++ encodeRound (Sample.account 7)).
Proof.
  split; [reflexivity|]. split; [reflexivity|].
  exact (decode_ignores_tag Sample.key_text Sample.tag Sample.other_tag
           (encodeRound (Sample.account 7)) eq_refl eq_refl).
Defined.

(** ** The round-id seed *)

(** C2: [getRoundPDA] does not serialize every unsigned 64-bit round id
    as its eight little-endian bytes.  For every id below 2^53 the seed
    is the label followed by those eight bytes exactly when bit 31 of the
    id is clear; when it is set, [roundIdNum & 0xffffffff] is negative and
    [writeUInt32LE] throws, so no seed is produced (2^31 is the least
    such id).  Above 2^53 the conversion [Number(roundId)] rounds: for
    2^53 + 1 the bytes written are those of 2^53, and for 2^64 - 1 the
    high word computed is 2^32 and the write throws. *)
Theorem roundSeeds_not_little_endian_u64 :
  (forall z,
      0 <= z < 2 ^ 53 ->
      roundSeeds z
      = if 2 ^ 31 <=? z mod 2 ^ 32 then Throw BufferRangeError
        else Ok [SEEDS.ROUND; encode_u64 z])
  /\ roundSeeds 2147483648 = Throw BufferRangeError
  /\ roundSeeds (2 ^ 53 + 1) = Ok [SEEDS.ROUND; encode_u64 (2 ^ 53)]
  /\ encode_u64 (2 ^ 53) <> encode_u64 (2 ^ 53 + 1)
  /\ roundSeeds (2 ^ 64 - 1) = Throw BufferRangeError
  /\ roundSeeds 7 = Ok [SEEDS.ROUND; encode_u64 7].
Proof.
  split; [exact roundSeeds_below_2_53|].
  repeat split; try (vm_compute; reflexivity).
  vm_compute. discriminate.
Qed.

Lemma roundSeeds_not_little_endian_u64_witness :
  0 <= 2147483648 < 2 ^ 53
  /\ roundSeeds 2147483648
     = (if 2 ^ 31 <=? 2147483648 mod 2 ^ 32 then Throw BufferRangeError
        else Ok [SEEDS.ROUND; encode_u64 2147483648]).
Proof.
  assert (H : 0 <= 2147483648 < 2 ^ 53) by lia.
  split; [exact H|].
  exact (proj1 roundSeeds_not_little_endian_u64 2147483648 H).
Defined.

(** ** The countdown *)

Lemma calculateTimeRemaining_sign_true (currentSlot endSlot : Z) :
  endSlot < currentSlot ->
  has_sign true
    (Js.Math_floor
       (Js.mul (Js.Number (endSlot - currentSlot)) CONSTANTS.SECONDS_PER_SLOT)).
Proof.
  intros H. apply Math_floor_sign, mul_SECONDS_PER_SLOT_sign, Number_negative.
  lia.
Qed.

Lemma calculateTimeRemaining_not_nan (currentSlot endSlot : Z) :
  Js.Math_floor
    (Js.mul (Js.Number (endSlot - currentSlot)) CONSTANTS.SECONDS_PER_SLOT)
  <> S754_nan.
Proof.
  destruct (Z.lt_trichotomy (endSlot - currentSlot) 0) as [H|[H|H]].
  - eapply has_sign_not_nan, Math_floor_sign, mul_SECONDS_PER_SLOT_sign,
      Number_negative, H.
  - rewrite H. vm_compute. discriminate.
  - eapply has_sign_not_nan, Math_floor_sign, mul_SECONDS_PER_SLOT_sign,
      Number_positive, H.
Qed.

(** C10: for every pair of slots, [calculateTimeRemaining] returns a
    number that is not negative (and not NaN), and it returns exactly 0
    whenever [currentSlot] is greater than or equal to [endSlot]. *)
Theorem calculateTimeRemaining_clamped (currentSlot endSlot : Z) :
  Js.nonneg (calculateTimeRemaining currentSlot endSlot) = true
  /\ (endSlot <= currentSlot ->
      calculateTimeRemaining currentSlot endSlot = S754_zero false).
Proof.
  unfold calculateTimeRemaining. split.
  - apply Math_max_zero_nonneg, calculateTimeRemaining_not_nan.
  - intros H. destruct (Z.eq_dec endSlot currentSlot) as [->|Hne].
    + rewrite Z.sub_diag. vm_compute. reflexivity.
    + apply Math_max_zero_negative, calculateTimeRemaining_sign_true. lia.
Qed.

Lemma calculateTimeRemaining_clamped_witness :
  103 <= 250 /\ calculateTimeRemaining 250 103 = S754_zero false.
Proof.
  assert (H : 103 <= 250) by lia.
  split; [exact H|].
  exact (proj2 (calculateTimeRemaining_clamped 250 103) H).
Defined.

(** ** The fetch effect of the page *)

Section Sync.

Context {PublicKey : Type}.
Variable find : list (list byte) -> result PublicKey.
Variable toStr : list byte -> string.

(** After the first render the effect never runs again. *)
Lemma Home_renders_idle (store : nat -> Connection PublicKey) (n : nat) :
  forall (k : nat) (s : HomeState) (started : nat),
    Home_renders find toStr store n k (Some Home_deps) s started = (s, started).
Proof.
  induction n as [|n IH]; intros k s started; [reflexivity|].
  cbn [Home_renders]. unfold effect_runs, Home_deps.
  destruct (list_eq_dec Z.eq_dec [] []) as [_|H]; [|congruence].
  cbn [negb]. apply IH.
Qed.

(** C3, as amended: the two records are stored one after the other, not
    as a pair.  On full success both are replaced within the run, the
    parent as soon as it is decoded and the child after its own fetch,
    and the error is cleared; and the page shows a pair of records only
    in the state that ends a run without error, where both are the
    records fetched in that run. *)
Theorem fetchData_shows_whole_pairs (connection : Connection PublicKey)
    (s : HomeState) :
  (forall b r,
      fetchBoard find connection = Ok b ->
      fetchRound find toStr connection (roundId b) = Ok r ->
      fetchData_final find toStr connection s
      = mkHome (Some b) (Some r) false None
      /\ fetchData_trace find toStr connection s = states_success s b r)
  /\ (forall s' b r,
         In s' (fetchData_trace find toStr connection s) ->
         Home_render s' = DashboardView b r ->
         fetchBoard find connection = Ok b
         /\ fetchRound find toStr connection (roundId b) = Ok r
         /\ s' = fetchData_final find toStr connection s).
Proof.
  unfold fetchData_final, fetchData_trace. split.
  - intros b r Hb Hr. rewrite (fetchData_success find toStr connection s b r Hb Hr).
    split; reflexivity.
  - intros s' b r Hin Hv.
    destruct (fetchBoard find connection) as [b0|e] eqn:Hb.
    + destruct (fetchRound find toStr connection (roundId b0)) as [r0|e] eqn:Hr.
      * rewrite (fetchData_success find toStr connection s b0 r0 Hb Hr) in *.
        cbn [fst snd states_success In] in *.
        repeat destruct Hin as [<-|Hin]; try discriminate Hv; try contradiction.
        unfold Home_render in Hv. cbn in Hv. inversion Hv; subst.
        rewrite Hr. repeat split.
      * rewrite (fetchData_round_failed find toStr connection s b0 e Hb Hr) in *.
        cbn [fst snd states_round_failed In] in *.
        repeat destruct Hin as [<-|Hin]; try discriminate Hv; contradiction.
    + rewrite (fetchData_board_failed find toStr connection s e Hb) in *.
      cbn [fst snd states_board_failed In] in *.
      repeat destruct Hin as [<-|Hin]; try discriminate Hv; contradiction.
Qed.

(** C4, as amended: when the parent step fails, both stored records are
    left as they were; when the child step fails, the child record is
    left as it was while the parent record is already the newly decoded
    one; in both cases the error cell, separate from the two record
    cells, receives the error and loading is switched off. *)
Theorem fetchData_on_failure (connection : Connection PublicKey)
    (s : HomeState) (e : Exn) :
  (fetchBoard find connection = Throw e ->
   fetchData_final find toStr connection s
   = mkHome (board s) (round s) false (Some e))
  /\ (forall b,
         fetchBoard find connection = Ok b ->
         fetchRound find toStr connection (roundId b) = Throw e ->
         fetchData_final find toStr connection s
         = mkHome (Some b) (round s) false (Some e)).
Proof.
  unfold fetchData_final. split.
  - intros H. now rewrite (fetchData_board_failed find toStr connection s e H).
  - intros b Hb Hr.
    now rewrite (fetchData_round_failed find toStr connection s b e Hb Hr).
Qed.

(** C5, as amended: there is no cross-check.  Whenever the parent decodes
    and the account found at the address derived from its round id
    decodes, the run succeeds whatever the child's id field holds: both
    records are stored, no error is set at any point, and the page shows
    the pair. *)
Theorem fetchData_has_no_id_check (connection : Connection PublicKey)
    (s : HomeState) (b : Board) (r : Round) :
  fetchBoard find connection = Ok b ->
  fetchRound find toStr connection (roundId b) = Ok r ->
  id r <> roundId b ->
  fetchData_final find toStr connection s = mkHome (Some b) (Some r) false None
  /\ Home_render (fetchData_final find toStr connection s) = DashboardView b r
  /\ (forall s', In s' (fetchData_trace find toStr connection s) ->
                 error s' = None \/ error s' = error s).
Proof.
  intros Hb Hr _. unfold fetchData_final, fetchData_trace.
  rewrite (fetchData_success find toStr connection s b r Hb Hr).
  cbn [fst snd states_success In]. repeat split.
  intros s' Hin.
  repeat destruct Hin as [<-|Hin]; cbn [error]; auto; contradiction.
Qed.

(** C6, as amended: the fetch sequence is entered once, after the first
    render of the mounted page, and never again: the effect has an empty
    dependency list and sets no timer.  However many renders follow and
    however the remote store changes meanwhile, the state is the one that
    single run left. *)
Theorem Home_fetches_once (store : nat -> Connection PublicKey) (renders : nat) :
  (1 <= renders)%nat ->
  Home_mounted find toStr store renders
  = (fetchData_final find toStr (store O) initialState, 1%nat).
Proof.
  intros H. destruct renders as [|n]; [lia|].
  unfold Home_mounted. cbn [Home_renders effect_runs].
  apply Home_renders_idle.
Qed.

End Sync.

(** ** The same, run on the sample store *)

Lemma fetchData_shows_whole_pairs_witness :
  fetchBoard Sample.find
    (Sample.store (Ok (Some (Sample.board_bytes Sample.board7)))
                  (Ok (Some (Sample.round_bytes 7)))) = Ok Sample.board7
  /\ fetchRound Sample.find Sample.key_text
       (Sample.store (Ok (Some (Sample.board_bytes Sample.board7)))
                     (Ok (Some (Sample.round_bytes 7)))) 7 = Ok (Sample.round 7)
  /\ fetchData_final Sample.find Sample.key_text
       (Sample.store (Ok (Some (Sample.board_bytes Sample.board7)))
                     (Ok (Some (Sample.round_bytes 7)))) Sample.earlier
     = mkHome (Some Sample.board7) (Some (Sample.round 7)) false None.
Proof.
  assert (Hb : fetchBoard Sample.find
                 (Sample.store (Ok (Some (Sample.board_bytes Sample.board7)))
                               (Ok (Some (Sample.round_bytes 7))))
               = Ok Sample.board7) by (vm_compute; reflexivity).
  assert (Hr : fetchRound Sample.find Sample.key_text
                 (Sample.store (Ok (Some (Sample.board_bytes Sample.board7)))
                               (Ok (Some (Sample.round_bytes 7))))
                 (roundId Sample.board7)
               = Ok (Sample.round 7)) by (vm_compute; reflexivity).
  split; [exact Hb|]. split; [exact Hr|].
  exact (proj1 (proj1 (fetchData_shows_whole_pairs Sample.find Sample.key_text
                         _ Sample.earlier) Sample.board7 (Sample.round 7) Hb Hr)).
Defined.

(** C3, as stated, fails: the stored pair is not replaced as a unit.
    From the initial state, with the board account present and the round
    account missing, the run ends with the parent stored and the child
    still absent.  From a state left by an earlier run, the same store
    leaves the new parent (round 7) next to the earlier child (round 6);
    and even a fully successful run passes through that mixed pair. *)
Lemma half_updated_pair :
  fetchData_final Sample.find Sample.key_text
    (Sample.store (Ok (Some (Sample.board_bytes Sample.board7))) (Ok None))
    initialState
  = mkHome (Some Sample.board7) None false (Some (RoundAccountNotFound 7))
  /\ fetchData_final Sample.find Sample.key_text
       (Sample.store (Ok (Some (Sample.board_bytes Sample.board7))) (Ok None))
       Sample.earlier
     = mkHome (Some Sample.board7) (Some (Sample.round 6)) false
         (Some (RoundAccountNotFound 7))
  /\ In (mkHome (Some Sample.board7) (Some (Sample.round 6)) true None)
        (fetchData_trace Sample.find Sample.key_text
           (Sample.store (Ok (Some (Sample.board_bytes Sample.board7)))
                         (Ok (Some (Sample.round_bytes 7))))
           Sample.earlier).
Proof.
  split; [vm_compute; reflexivity|]. split; [vm_compute; reflexivity|].
  vm_compute. right. right. left. reflexivity.
Qed.

Lemma fetchData_on_failure_witness :
  fetchBoard Sample.find
    (Sample.store (Ok None) (Ok None)) = Throw BoardAccountNotFound
  /\ fetchData_final Sample.find Sample.key_text
       (Sample.store (Ok None) (Ok None)) Sample.earlier
     = mkHome (Some Sample.board6) (Some (Sample.round 6)) false
         (Some BoardAccountNotFound).
Proof.
  assert (Hb : fetchBoard Sample.find (Sample.store (Ok None) (Ok None))
               = Throw BoardAccountNotFound) by reflexivity.
  split; [exact Hb|].
  exact (proj1 (fetchData_on_failure Sample.find Sample.key_text
                  (Sample.store (Ok None) (Ok None)) Sample.earlier
                  BoardAccountNotFound) Hb).
Defined.

(** C4, as stated, fails when the child step fails: with the board
    account present and the round fetch raising an error, the parent
    record is replaced (from absent to round 7, or from round 6 to
    round 7) although the run failed. *)
Lemma failure_replaces_parent :
  fetchData_final Sample.find Sample.key_text
    (Sample.store (Ok (Some (Sample.board_bytes Sample.board7)))
                  (Throw (External "fetch failed")))
    initialState
  = mkHome (Some Sample.board7) None false (Some (External "fetch failed"))
  /\ board initialState = None
  /\ fetchData_final Sample.find Sample.key_text
       (Sample.store (Ok (Some (Sample.board_bytes Sample.board7)))
                     (Throw (External "fetch failed")))
       Sample.earlier
     = mkHome (Some Sample.board7) (Some (Sample.round 6)) false
         (Some (External "fetch failed"))
  /\ board Sample.earlier = Some Sample.board6.
Proof.
  repeat split; vm_compute; reflexivity.
Qed.

Lemma fetchData_has_no_id_check_witness :
  fetchBoard Sample.find
    (Sample.store (Ok (Some (Sample.board_bytes Sample.board7)))
                  (Ok (Some (Sample.round_bytes 8)))) = Ok Sample.board7
  /\ fetchRound Sample.find Sample.key_text
       (Sample.store (Ok (Some (Sample.board_bytes Sample.board7)))
                     (Ok (Some (Sample.round_bytes 8)))) 7 = Ok (Sample.round 8)
  /\ id (Sample.round 8) <> roundId Sample.board7
  /\ Home_render
       (fetchData_final Sample.find Sample.key_text
          (Sample.store (Ok (Some (Sample.board_bytes Sample.board7)))
                        (Ok (Some (Sample.round_bytes 8)))) initialState)
     = DashboardView Sample.board7 (Sample.round 8).
Proof.
  assert (Hb : fetchBoard Sample.find
                 (Sample.store (Ok (Some (Sample.board_bytes Sample.board7)))
                               (Ok (Some (Sample.round_bytes 8))))
               = Ok Sample.board7) by (vm_compute; reflexivity).
  assert (Hr : fetchRound Sample.find Sample.key_text
                 (Sample.store (Ok (Some (Sample.board_bytes Sample.board7)))
                               (Ok (Some (Sample.round_bytes 8))))
                 (roundId Sample.board7)
               = Ok (Sample.round 8)) by (vm_compute; reflexivity).
  assert (Hne : id (Sample.round 8) <> roundId Sample.board7)
    by (vm_compute; discriminate).
  split; [exact Hb|]. split; [exact Hr|]. split; [exact Hne|].
  exact (proj1 (proj2 (fetchData_has_no_id_check Sample.find Sample.key_text
                         _ initialState Sample.board7 (Sample.round 8)
                         Hb Hr Hne))).
Defined.

(** C5, as stated, fails: with a store returning a parent whose round id
    is 7 and a child whose id is 8, the run does not fail; the pair
    (7, 8) replaces the stored records and no error is set, from the
    initial state and from an earlier state alike. *)
Lemma mismatched_child_is_published :
  roundId Sample.board7 = 7 /\ id (Sample.round 8) = 8
  /\ fetchData_final Sample.find Sample.key_text
       (Sample.store (Ok (Some (Sample.board_bytes Sample.board7)))
                     (Ok (Some (Sample.round_bytes 8)))) initialState
     = mkHome (Some Sample.board7) (Some (Sample.round 8)) false None
  /\ fetchData_final Sample.find Sample.key_text
       (Sample.store (Ok (Some (Sample.board_bytes Sample.board7)))
                     (Ok (Some (Sample.round_bytes 8)))) Sample.earlier
     = mkHome (Some Sample.board7) (Some (Sample.round 8)) false None.
Proof.
  repeat split; vm_compute; reflexivity.
Qed.

Lemma Home_fetches_once_witness :
  (1 <= 3)%nat
  /\ Home_mounted Sample.find Sample.key_text Sample.changing_store 3
     = (fetchData_final Sample.find Sample.key_text (Sample.changing_store 0)
          initialState, 1%nat).
Proof.
  assert (H : (1 <= 3)%nat) by lia.
  split; [exact H|].
  exact (Home_fetches_once Sample.find Sample.key_text Sample.changing_store 3 H).
Defined.

(** C6, as stated, fails: over three renders of the mounted page, during
    which the remote board advances from round 7 to round 9, the fetch
    sequence is started once, not three times, and the page still holds
    round 7. *)
Lemma no_periodic_refetch :
  Home_mounted Sample.find Sample.key_text Sample.changing_store 3
  = (mkHome (Some Sample.board7) (Some (Sample.round 7)) false None, 1%nat)
  /\ fetchBoard Sample.find (Sample.changing_store 2) = Ok Sample.board9.
Proof.
  split; vm_compute; reflexivity.
Qed.

(** * Further properties *)

(** ** Rounding keeps the leading bit in place *)

Lemma Zdigits2_log2 (p : positive) : Zdigits2 (Z.pos p) = Z.log2 (Z.pos p) + 1.
Proof.
  cbn [Zdigits2]. rewrite digits2_pos_size.
  destruct p; cbn [Pos.size Z.log2]; lia.
Qed.

Lemma Zdigits2_nonneg (m : Z) : 0 <= Zdigits2 m.
Proof. destruct m; cbn; lia. Qed.

Lemma Zdigits2_pos_iff (m : Z) : 0 <= m -> (0 < m <-> 0 < Zdigits2 m).
Proof. destruct m; cbn; lia. Qed.

Lemma Zdigits2_le (a b : Z) : 0 < a <= b -> Zdigits2 a <= Zdigits2 b.
Proof.
  intros H. destruct a as [|p|p], b as [|q|q]; try lia.
  rewrite !Zdigits2_log2.
  pose proof (Z.log2_le_mono (Z.pos p) (Z.pos q)). lia.
Qed.

Lemma Zdigits2_lt_pow (a k : Z) : 0 <= k -> 0 <= a < 2 ^ k -> Zdigits2 a <= k.
Proof.
  intros Hk H. destruct a as [|p|p]; try lia; [cbn; lia|].
  rewrite Zdigits2_log2.
  destruct (Z.eq_dec k 0) as [->|Hk0]; [cbn in H; lia|].
  pose proof (proj1 (Z.log2_lt_pow2 (Z.pos p) k ltac:(lia)) ltac:(lia)). lia.
Qed.

Lemma Zdigits2_ge_pow (a k : Z) : 0 <= k -> 2 ^ k <= a -> k + 1 <= Zdigits2 a.
Proof.
  intros Hk H. assert (0 < a) by (pose proof (Z.pow_pos_nonneg 2 k); lia).
  destruct a as [|p|p]; try lia.
  rewrite Zdigits2_log2.
  pose proof (proj1 (Z.log2_le_pow2 (Z.pos p) k ltac:(lia)) H). lia.
Qed.

Lemma Zdigits2_bounds (a : Z) :
  0 < a -> 2 ^ (Zdigits2 a - 1) <= a < 2 ^ Zdigits2 a.
Proof.
  intros H. destruct a as [|p|p]; try lia.
  rewrite Zdigits2_log2. replace (Z.log2 (Z.pos p) + 1 - 1) with (Z.log2 (Z.pos p)) by lia.
  pose proof (Z.log2_spec (Z.pos p) ltac:(lia)) as [L U].
  rewrite <- Z.add_1_r in U. split; assumption.
Qed.

Lemma shr_1_digits (mrs : shr_record) :
  0 <= shr_m mrs ->
  Zdigits2 (shr_m (shr_1 mrs)) = Z.max 0 (Zdigits2 (shr_m mrs) - 1).
Proof.
  destruct mrs as [m r s]. cbn [shr_m]. intros H.
  destruct m as [|p|p]; [reflexivity| |lia].
  destruct p; cbn [shr_1 shr_m Zdigits2 digits2_pos]; lia.
Qed.

Lemma iter_shr_1_digits (p : positive) :
  forall mrs,
    0 <= shr_m mrs ->
    Zdigits2 (shr_m (iter_pos shr_1 p mrs))
    = Z.max 0 (Zdigits2 (shr_m mrs) - Z.pos p).
Proof.
  induction p as [p IH|p IH|]; intros mrs H; cbn [iter_pos].
  - rewrite IH, IH, shr_1_digits by auto using shr_1_nonneg, iter_shr_1_nonneg.
    lia.
  - rewrite IH, IH by auto using iter_shr_1_nonneg. lia.
  - apply shr_1_digits, H.
Qed.

(** Shifting to the target exponent keeps a positive mantissa positive,
    and the position of its leading bit, unless the number is below the
    smallest subnormal. *)
Lemma shr_fexp_leading_bit (m e : Z) (l : location) :
  0 < m -> -1074 < Zdigits2 m + e ->
  0 < shr_m (fst (shr_fexp Js.prec Js.emax m e l))
  /\ Zdigits2 (shr_m (fst (shr_fexp Js.prec Js.emax m e l)))
     + snd (shr_fexp Js.prec Js.emax m e l) = Zdigits2 m + e.
Proof.
  intros Hm HD. unfold shr_fexp, shr.
  assert (H0 : shr_m (shr_record_of_loc m l) = m)
    by (destruct l as [|[| |]]; reflexivity).
  pose proof (Zdigits2_nonneg m) as Hd0.
  pose proof (proj1 (Zdigits2_pos_iff m ltac:(lia)) Hm) as Hd.
  destruct (fexp Js.prec Js.emax (Zdigits2 m + e) - e) as [|p|p] eqn:E;
    cbn [fst snd]; rewrite ?H0; try (split; [lia|reflexivity]).
  assert (Hp : Z.pos p < Zdigits2 m)
    by (unfold fexp, emin, Js.prec, Js.emax in E; lia).
  assert (Hdig : Zdigits2 (shr_m (iter_pos shr_1 p (shr_record_of_loc m l)))
                 = Zdigits2 m - Z.pos p).
  { rewrite iter_shr_1_digits by (rewrite H0; lia). rewrite H0. lia. }
  split; [|lia].
  apply Zdigits2_pos_iff; [|lia].
  apply iter_shr_1_nonneg. rewrite H0. lia.
Qed.

Lemma round_nearest_even_range (m : Z) (l : location) :
  m <= round_nearest_even m l <= m + 1.
Proof.
  destruct l as [|[| |]]; cbn; try lia. destruct (Z.even m); lia.
Qed.

Lemma Zdigits2_succ (m : Z) : 0 < m -> Zdigits2 (m + 1) <= Zdigits2 m + 1.
Proof.
  intros H. pose proof (Zdigits2_bounds m H) as [_ U].
  apply Zdigits2_lt_pow; [pose proof (Zdigits2_nonneg m); lia|].
  rewrite Z.pow_add_r by (pose proof (Zdigits2_nonneg m); lia). lia.
Qed.

(** The shape of a rounded positive mantissa: never a zero or a NaN, and
    finite, with its leading bit at most one place up, when it is not
    beyond the largest double. *)
Lemma binary_round_aux_shape (sx : bool) (mx ex : Z) (lx : location) :
  0 < mx -> -1074 < Zdigits2 mx + ex ->
  (exists m e,
      binary_round_aux Js.prec Js.emax sx mx ex lx = S754_finite sx m e
      /\ Zdigits2 mx + ex <= Zdigits2 (Z.pos m) + e <= Zdigits2 mx + ex + 1)
  \/ (binary_round_aux Js.prec Js.emax sx mx ex lx = S754_infinity sx
      /\ 971 < Zdigits2 mx + ex).
Proof.
  intros Hm HD. unfold binary_round_aux.
  pose proof (shr_fexp_leading_bit mx ex lx Hm HD) as [P1 D1].
  destruct (shr_fexp Js.prec Js.emax mx ex lx) as [mrs' e'].
  cbn [fst snd] in P1, D1.
  pose proof (round_nearest_even_range (shr_m mrs') (loc_of_shr_record mrs'))
    as Hr.
  set (m2 := round_nearest_even (shr_m mrs') (loc_of_shr_record mrs')) in *.
  assert (Hd2 : Zdigits2 (shr_m mrs') <= Zdigits2 m2 <= Zdigits2 (shr_m mrs') + 1).
  { split; [apply Zdigits2_le; lia|].
    destruct (Z.eq_dec m2 (shr_m mrs')) as [->|]; [lia|].
    replace m2 with (shr_m mrs' + 1) by lia. apply Zdigits2_succ, P1. }
  pose proof (shr_fexp_leading_bit m2 e' loc_Exact ltac:(lia) ltac:(lia))
    as [P2 D2].
  destruct (shr_fexp Js.prec Js.emax m2 e' loc_Exact) as [mrs'' e''].
  cbn [fst snd] in P2, D2.
  destruct (shr_m mrs'') as [|m|m] eqn:Em; try lia.
  destruct (Z.leb_spec e'' (Js.emax - Js.prec)) as [Hle|Hgt].
  - left. exists m, e''. split; [reflexivity|]. lia.
  - right. split; [reflexivity|].
    unfold Js.emax, Js.prec in Hgt.
    pose proof (proj1 (Zdigits2_pos_iff (Z.pos m) ltac:(lia)) ltac:(lia)). lia.
Qed.

Lemma binary_round_shape (sx : bool) (m : positive) :
  (exists mz ez,
      binary_round Js.prec Js.emax sx m 0 = S754_finite sx mz ez
      /\ Zdigits2 (Z.pos m) <= Zdigits2 (Z.pos mz) + ez <= Zdigits2 (Z.pos m) + 1)
  \/ (binary_round Js.prec Js.emax sx m 0 = S754_infinity sx
      /\ 971 < Zdigits2 (Z.pos m)).
Proof.
  unfold binary_round. rewrite Z.add_0_r.
  assert (Ha : forall mz ez,
             shl_align m 0 (fexp Js.prec Js.emax (Z.pos (digits2_pos m)))
             = (mz, ez) ->
             Zdigits2 (Z.pos mz) + ez = Zdigits2 (Z.pos m)).
  { intros mz ez. unfold shl_align.
    destruct (fexp Js.prec Js.emax (Z.pos (digits2_pos m)) - 0)
      as [|d|d] eqn:E; intros H; inversion H; subst; try lia.
    cbn [Zdigits2]. rewrite digits2_pos_iter. lia. }
  destruct (shl_align m 0 (fexp Js.prec Js.emax (Z.pos (digits2_pos m))))
    as [mz ez].
  specialize (Ha mz ez eq_refl).
  pose proof (Zdigits2_nonneg (Z.pos m)).
  destruct (binary_round_aux_shape sx (Z.pos mz) ez loc_Exact ltac:(lia)
              ltac:(lia)) as [(m' & e' & E & B)|[E B]].
  - left. exists m', e'. split; [exact E|lia].
  - right. split; [exact E|lia].
Qed.

(** The leading bit of a quotient of two positive integers. *)
Lemma quotient_digits (a b : Z) :
  0 < a -> 0 < b -> Zdigits2 b = 53 -> 54 <= Zdigits2 a ->
  0 < a / b
  /\ Zdigits2 a - 53 <= Zdigits2 (a / b) <= Zdigits2 a - 52.
Proof.
  intros Ha Hb Hdb Hda.
  pose proof (Zdigits2_bounds a Ha) as [La Ua].
  pose proof (Zdigits2_bounds b Hb) as [Lb Ub]. rewrite Hdb in Lb, Ub.
  change (2 ^ (53 - 1)) with (2 ^ 52) in Lb.
  set (d := Zdigits2 a) in *.
  assert (Hlow : 2 ^ (d - 54) <= a / b).
  { apply Z.div_le_lower_bound; [lia|].
    transitivity (2 ^ 53 * 2 ^ (d - 54)).
    - apply Z.mul_le_mono_nonneg_r; [apply Z.pow_nonneg; lia|lia].
    - rewrite <- Z.pow_add_r by lia. replace (53 + (d - 54)) with (d - 1) by lia.
      exact La. }
  assert (Hup : a / b < 2 ^ (d - 52)).
  { apply Z.div_lt_upper_bound; [lia|].
    apply Z.lt_le_trans with (2 ^ d); [exact Ua|].
    transitivity (2 ^ 52 * 2 ^ (d - 52)).
    - rewrite <- Z.pow_add_r by lia. replace (52 + (d - 52)) with d by lia. lia.
    - apply Z.mul_le_mono_nonneg_r; [apply Z.pow_nonneg; lia|lia]. }
  assert (Hpos : 0 < 2 ^ (d - 54)) by (apply Z.pow_pos_nonneg; lia).
  split; [lia|]. split.
  - pose proof (Zdigits2_ge_pow (a / b) (d - 54) ltac:(lia) Hlow). lia.
  - apply Zdigits2_lt_pow; lia.
Qed.

Lemma Zdigits2_shiftl (m s : Z) :
  0 < m -> 0 <= s -> Zdigits2 (m * 2 ^ s) = Zdigits2 m + s.
Proof.
  intros Hm Hs.
  pose proof (Zdigits2_bounds m Hm) as [L U].
  pose proof (Zdigits2_nonneg m).
  assert (Hd : 0 < Zdigits2 m)
    by (apply (proj1 (Zdigits2_pos_iff m ltac:(lia)) Hm)).
  assert (P : 0 < 2 ^ s) by (apply Z.pow_pos_nonneg; lia).
  apply Z.le_antisymm.
  - apply Zdigits2_lt_pow; [lia|]. split; [nia|].
    rewrite Z.pow_add_r by lia. nia.
  - pose proof (Zdigits2_ge_pow (m * 2 ^ s) (Zdigits2 m - 1 + s) ltac:(lia)) as G.
    rewrite Z.pow_add_r in G by lia.
    assert (2 ^ (Zdigits2 m - 1) * 2 ^ s <= m * 2 ^ s) by nia. lia.
Qed.

(** Dividing a finite number by a normal positive one: the quotient is
    of the dividend's sign, not zero, and finite with its leading bit
    where the operands put it, unless it is too large. *)
Lemma div_shape (sx : bool) (mx my : positive) (ex ey : Z) :
  digits2_pos my = 53%positive ->
  -1021 <= Zdigits2 (Z.pos mx) + ex - (53 + ey) ->
  (exists m e,
      Js.div (S754_finite sx mx ex) (S754_finite false my ey)
      = S754_finite sx m e
      /\ Zdigits2 (Z.pos mx) + ex - (53 + ey) <= Zdigits2 (Z.pos m) + e
         <= Zdigits2 (Z.pos mx) + ex - (53 + ey) + 2)
  \/ (Js.div (S754_finite sx mx ex) (S754_finite false my ey)
      = S754_infinity sx
      /\ 970 < Zdigits2 (Z.pos mx) + ex - (53 + ey)).
Proof.
  intros Hdy Hrange. unfold Js.div, SFdiv. rewrite xorb_false_r.
  unfold SFdiv_core_binary.
  set (d1 := Zdigits2 (Z.pos mx)) in *.
  assert (Hd2 : Zdigits2 (Z.pos my) = 53) by (cbn [Zdigits2]; now rewrite Hdy).
  rewrite Hd2.
  assert (Hd1 : 0 < d1) by (subst d1; cbn; lia).
  set (e' := Z.min (fexp Js.prec Js.emax (d1 + ex - (53 + ey))) (ex - ey)).
  assert (He' : e' <= d1 + ex - ey - 106 /\ e' <= ex - ey
                /\ (e' = d1 + ex - ey - 106 \/ e' = ex - ey)).
  { subst e'. unfold fexp, emin, Js.prec, Js.emax. lia. }
  set (s := ex - ey - e').
  assert (Hs : 0 <= s /\ 106 <= d1 + s) by (subst s; lia).
  assert (Hm' : match s with
                | Z0 => Z.pos mx
                | Z.pos _ => Z.shiftl (Z.pos mx) s
                | Z.neg _ => 0
                end = Z.pos mx * 2 ^ s).
  { destruct s as [|p|p] eqn:Es; [lia| |lia].
    apply Z.shiftl_mul_pow2. lia. }
  rewrite Hm'.
  assert (Hdm : Zdigits2 (Z.pos mx * 2 ^ s) = d1 + s)
    by (apply Zdigits2_shiftl; lia).
  assert (Hpos : 0 < Z.pos mx * 2 ^ s)
    by (apply Z.mul_pos_pos; [lia|apply Z.pow_pos_nonneg; lia]).
  pose proof (quotient_digits (Z.pos mx * 2 ^ s) (Z.pos my) Hpos ltac:(lia) Hd2
                ltac:(lia)) as (Hq & Hlo & Hhi).
  unfold Z.div in Hq, Hlo, Hhi.
  destruct (Z.div_eucl (Z.pos mx * 2 ^ s) (Z.pos my)) as [q r].
  rewrite Hdm in Hlo, Hhi.
  destruct (binary_round_aux_shape sx q e' (new_location (Z.pos my) r) Hq
              ltac:(lia)) as [(m & e & E & B)|[E B]].
  - left. exists m, e. split; [exact E|]. subst s. lia.
  - right. split; [exact E|]. subst s. lia.
Qed.

Lemma Number_shape (z : Z) :
  z <> 0 ->
  (exists m e,
      Js.Number z = S754_finite (z <? 0) m e
      /\ Zdigits2 z <= Zdigits2 (Z.pos m) + e <= Zdigits2 z + 1)
  \/ (Js.Number z = S754_infinity (z <? 0) /\ 971 < Zdigits2 z).
Proof.
  intros H. destruct z as [|p|p]; [congruence| |].
  - exact (binary_round_shape false p).
  - exact (binary_round_shape true p).
Qed.

Lemma SFeqb_zero_nonzero (s : bool) (x : spec_float) :
  nonzero_of_sign s x -> SFeqb x (Js.Number 0) = false.
Proof.
  intros [(m & e & ->)| ->]; destruct s; reflexivity.
Qed.

(** Dividing an integer by a positive constant whose double has the
    mantissa [my] and exponent [ey]. *)
Lemma div_Number_nonzero (z : Z) (my : positive) (ey : Z) :
  digits2_pos my = 53%positive -> -53 <= ey <= 0 -> z <> 0 ->
  nonzero_of_sign (z <? 0) (Js.div (Js.Number z) (S754_finite false my ey)).
Proof.
  intros Hd He Hz.
  assert (Hdz : 1 <= Zdigits2 z) by (destruct z; cbn; lia).
  destruct (Number_shape z Hz) as [(m & e & -> & B)|[-> B]].
  - destruct (div_shape (z <? 0) m my e ey Hd ltac:(lia))
      as [(m' & e' & -> & _)|[-> _]].
    + left. eauto.
    + now right.
  - right. unfold Js.div. cbn [SFdiv]. now rewrite xorb_false_r.
Qed.

Lemma div_Number_finite (z : Z) (my : positive) (ey : Z) :
  digits2_pos my = 53%positive -> -53 <= ey <= 0 -> 0 < z < 2 ^ 64 ->
  exists m e, Js.div (Js.Number z) (S754_finite false my ey)
              = S754_finite false m e.
Proof.
  intros Hd He Hz.
  assert (Hdz : 1 <= Zdigits2 z <= 64).
  { split; [destruct z; cbn; lia|apply Zdigits2_lt_pow; lia]. }
  assert (Hs : (z <? 0) = false) by (apply Z.ltb_ge; lia).
  destruct (Number_shape z ltac:(lia)) as [(m & e & E & B)|[_ B]]; [|lia].
  rewrite Hs in E. rewrite E.
  destruct (div_shape false m my e ey Hd ltac:(lia))
    as [(m' & e' & -> & _)|[_ B']]; [eauto|lia].
Qed.

Lemma Number_LAMPORTS_PER_SOL :
  Js.Number CONSTANTS.LAMPORTS_PER_SOL
  = S754_finite false 8388608000000000 (-23).
Proof. vm_compute. reflexivity. Qed.

Lemma Number_ONE_ORE :
  Js.Number CONSTANTS.ONE_ORE = S754_finite false 6553600000000000 (-16).
Proof. vm_compute. reflexivity. Qed.

Lemma lamportsToSol_zero_eqb (lamports : Z) :
  SFeqb (lamportsToSol lamports) (Js.Number 0) = (lamports =? 0).
Proof.
  destruct (Z.eqb_spec lamports 0) as [->|Hne]; [reflexivity|].
  unfold lamportsToSol. rewrite Number_LAMPORTS_PER_SOL.
  apply (SFeqb_zero_nonzero (lamports <? 0)).
  apply div_Number_nonzero; [reflexivity|lia|exact Hne].
Qed.

Lemma gramsToOre_zero_eqb (grams : Z) :
  SFeqb (gramsToOre grams) (Js.Number 0) = (grams =? 0).
Proof.
  destruct (Z.eqb_spec grams 0) as [->|Hne]; [reflexivity|].
  unfold gramsToOre. rewrite Number_ONE_ORE.
  apply (SFeqb_zero_nonzero (grams <? 0)).
  apply div_Number_nonzero; [reflexivity|lia|exact Hne].
Qed.

(** X8: [lamportsToSol] and [gramsToOre] return zero for the amount zero
    and for no other amount, however small next to 10^9 or 10^11 and
    whatever its sign. *)
Theorem conversions_zero_iff (amount : Z) :
  (SFeqb (lamportsToSol amount) (Js.Number 0) = true <-> amount = 0)
  /\ (SFeqb (gramsToOre amount) (Js.Number 0) = true <-> amount = 0).
Proof.
  rewrite lamportsToSol_zero_eqb, gramsToOre_zero_eqb.
  split; apply Z.eqb_eq.
Qed.

(** X9: for unsigned 64-bit amounts the conversions return a finite
    number that is not negative. *)
Theorem conversions_finite (amount : Z) :
  0 <= amount < 2 ^ 64 ->
  (lamportsToSol amount = S754_zero false
   \/ exists m e, lamportsToSol amount = S754_finite false m e)
  /\ (gramsToOre amount = S754_zero false
      \/ exists m e, gramsToOre amount = S754_finite false m e).
Proof.
  intros H. unfold lamportsToSol, gramsToOre.
  rewrite Number_LAMPORTS_PER_SOL, Number_ONE_ORE.
  destruct (Z.eq_dec amount 0) as [->|Hne]; [split; left; reflexivity|].
  split; right; apply div_Number_finite; try reflexivity; lia.
Qed.

(** ** What a successful decode tells *)

Lemma decodeBoard_ok_inv (data : list byte) (b : Board) :
  decodeBoard data = Ok b ->
  (32 <= length data)%nat /\ wf_board b
  /\ exists tag extra,
      length tag = 8%nat /\ data = tag ++ encodeBoard b ++ extra.
Proof.
  intros H. destruct (Nat.lt_ge_cases (length data) 32) as [Hs|Hl].
  - rewrite (decodeBoard_short data Hs) in H. discriminate.
  - split; [exact Hl|].
    destruct (board_buffer_shape data Hl) as (tag & b' & extra & Ht & Hb & ->).
    rewrite (decodeBoard_encode tag extra b' Ht Hb) in H. inversion H; subst.
    split; [exact Hb|]. exists tag, extra. now split.
Qed.

Lemma decodeRound_ok_inv (toStr : list byte -> string) (data : list byte)
    (r : Round) :
  decodeRound toStr data = Ok r ->
  (560 <= length data)%nat
  /\ exists tag a extra,
      length tag = 8%nat /\ wf_account a
      /\ data = tag ++ encodeRound a ++ extra
      /\ r = Round_of_account toStr a.
Proof.
  intros H. destruct (Nat.lt_ge_cases (length data) 560) as [Hs|Hl].
  - rewrite (decodeRound_short toStr data Hs) in H. discriminate.
  - split; [exact Hl|].
    destruct (round_buffer_shape data Hl) as (tag & a & extra & Ht & Ha & ->).
    rewrite (decodeRound_encode toStr tag extra a Ht Ha) in H.
    inversion H; subst. exists tag, a, extra.
    split; [exact Ht|split; [exact Ha|split; reflexivity]].
Qed.

(** X1: the decoders succeed exactly on the buffers that are long enough:
    32 bytes for a board, 560 for a round; nothing else about the bytes
    can make them fail. *)
Theorem decode_succeeds_iff_long_enough (toStr : list byte -> string)
    (data : list byte) :
  ((exists b, decodeBoard data = Ok b) <-> (32 <= length data)%nat)
  /\ ((exists r, decodeRound toStr data = Ok r) <-> (560 <= length data)%nat).
Proof.
  split; split.
  - intros (b & H). apply (decodeBoard_ok_inv data b H).
  - intros H.
    destruct (board_buffer_shape data H) as (tag & b & extra & Ht & Hb & ->).
    exists b. now apply decodeBoard_encode.
  - intros (r & H). apply (decodeRound_ok_inv toStr data r H).
  - intros H.
    destruct (round_buffer_shape data H) as (tag & a & extra & Ht & Ha & ->).
    exists (Round_of_account toStr a). now apply decodeRound_encode.
Qed.

(** X2: every record a decoder returns is well formed: each integer field
    lies in the unsigned 64-bit range, a round has exactly 25 deployed
    amounts and 25 miner counts, and its slot hash is 32 bytes long. *)
Theorem decoded_records_well_formed (toStr : list byte -> string)
    (data : list byte) :
  (forall b, decodeBoard data = Ok b -> wf_board b)
  /\ (forall r,
         decodeRound toStr data = Ok r ->
         u64 (id r)
         /\ (length (deployed r) = 25%nat /\ Forall u64 (deployed r))
         /\ length (slotHash r) = 32%nat
         /\ (length (count r) = 25%nat /\ Forall u64 (count r))
         /\ u64 (expiresAt r) /\ u64 (motherlode r)
         /\ u64 (topMinerReward r) /\ u64 (totalDeployed r)
         /\ u64 (totalVaulted r) /\ u64 (totalWinnings r)).
Proof.
  split.
  - intros b H. apply (decodeBoard_ok_inv data b H).
  - intros r H.
    destruct (decodeRound_ok_inv toStr data r H)
      as (_ & tag & a & extra & _ & Ha & _ & ->).
    destruct Ha as (H1 & H2 & H3 & H4 & H5 & H6 & _ & _ & H9 & H10 & H11 & H12).
    unfold Round_of_account.
    cbn [id deployed slotHash count expiresAt motherlode topMinerReward
         totalDeployed totalVaulted totalWinnings].
    repeat (split; [assumption|]). assumption.
Qed.

Lemma decoded_records_well_formed_witness :
  decodeRound Sample.key_text (Sample.round_bytes 7) = Ok (Sample.round 7)
  /\ length (deployed (Sample.round 7)) = 25%nat
  /\ length (count (Sample.round 7)) = 25%nat.
Proof.
  assert (H : decodeRound Sample.key_text (Sample.round_bytes 7)
              = Ok (Sample.round 7)) by (vm_compute; reflexivity).
  split; [exact H|].
  pose proof (proj2 (decoded_records_well_formed Sample.key_text
                       (Sample.round_bytes 7)) (Sample.round 7) H)
    as (_ & (Hd & _) & _ & (Hc & _) & _).
  split; [exact Hd|exact Hc].
Defined.

(** ** The round seed *)

Lemma writeUInt32LE_length (buf out : list byte) (value : spec_float)
    (off : nat) :
  Buffer.writeUInt32LE buf value off = Ok out -> length out = length buf.
Proof.
  unfold Buffer.writeUInt32LE.
  destruct (SFltb (Js.Number 4294967295) value || SFltb value (Js.Number 0));
    [discriminate|].
  destruct (Nat.ltb_spec (length buf) (off + 4)) as [|Hle]; [discriminate|].
  intros H. inversion H; subst out.
  rewrite length_app, length_firstn. cbn [length]. rewrite length_skipn. lia.
Qed.

(** X3: for every [bigint] whatever, when [getRoundPDA] gets as far as the
    address search, the seeds it passes are the five bytes of "round"
    followed by a buffer of exactly eight bytes; it never passes the
    board's seed list. *)
Theorem roundSeeds_shape (roundId : Z) (seeds : list (list byte)) :
  roundSeeds roundId = Ok seeds ->
  (exists buffer,
      seeds = [SEEDS.ROUND; buffer] /\ length buffer = 8%nat
      /\ length SEEDS.ROUND = 5%nat)
  /\ seeds <> boardSeeds.
Proof.
  unfold roundSeeds, roundIdBuffer. intros H.
  destruct (Buffer.writeUInt32LE (Buffer.alloc 8) _ 0) as [b1|] eqn:E1;
    cbn [bind] in H; [|discriminate].
  destruct (Buffer.writeUInt32LE b1 _ 4) as [b2|] eqn:E2;
    cbn [bind] in H; [|discriminate].
  inversion H; subst. split; [|discriminate].
  exists b2. split; [reflexivity|]. split; [|reflexivity].
  rewrite (writeUInt32LE_length _ _ _ _ E2), (writeUInt32LE_length _ _ _ _ E1).
  reflexivity.
Qed.

Lemma roundSeeds_shape_witness :
  roundSeeds 7 = Ok [SEEDS.ROUND; encode_u64 7]
  /\ [SEEDS.ROUND; encode_u64 7] <> boardSeeds.
Proof.
  assert (H : roundSeeds 7 = Ok [SEEDS.ROUND; encode_u64 7])
    by (vm_compute; reflexivity).
  split; [exact H|].
  exact (proj2 (roundSeeds_shape 7 [SEEDS.ROUND; encode_u64 7] H)).
Defined.

Lemma encode_u64_injective (z1 z2 : Z) :
  u64 z1 -> u64 z2 -> encode_u64 z1 = encode_u64 z2 -> z1 = z2.
Proof.
  intros H1 H2 H. apply (f_equal le_combine) in H.
  unfold encode_u64 in H. rewrite !le_combine_split in H.
  change (8 * Z.of_nat 8) with 64 in H.
  rewrite !Z.mod_small in H by assumption. exact H.
Qed.

(** X4: below 2^53 two different round ids never get the same seeds, so
    (the address search being a function of the seeds) every round the
    page can address has seeds of its own. *)
Theorem roundSeeds_injective (id1 id2 : Z) (seeds : list (list byte)) :
  0 <= id1 < 2 ^ 53 -> 0 <= id2 < 2 ^ 53 ->
  roundSeeds id1 = Ok seeds -> roundSeeds id2 = Ok seeds ->
  id1 = id2.
Proof.
  intros H1 H2 E1 E2.
  rewrite (roundSeeds_below_2_53 id1 H1) in E1.
  rewrite (roundSeeds_below_2_53 id2 H2) in E2.
  destruct (2 ^ 31 <=? id1 mod 2 ^ 32); [discriminate|].
  destruct (2 ^ 31 <=? id2 mod 2 ^ 32); [discriminate|].
  rewrite <- E1 in E2.
  apply (f_equal (fun r => match r with
                           | Ok [_; b] => b
                           | _ => []
                           end)) in E2.
  symmetry. apply encode_u64_injective; [| |exact E2]; unfold u64; lia.
Qed.

Lemma roundSeeds_injective_witness :
  0 <= 7 < 2 ^ 53
  /\ roundSeeds 7 = Ok [SEEDS.ROUND; encode_u64 7]
  /\ 7 = 7.
Proof.
  assert (H : 0 <= 7 < 2 ^ 53) by lia.
  assert (E : roundSeeds 7 = Ok [SEEDS.ROUND; encode_u64 7])
    by (vm_compute; reflexivity).
  split; [exact H|]. split; [exact E|].
  exact (roundSeeds_injective 7 7 _ H H E E).
Defined.

(** ** The page after a run *)

Section Page.

Context {PublicKey : Type}.
Variable find : list (list byte) -> result PublicKey.
Variable toStr : list byte -> string.
Variable connection : Connection PublicKey.

(** X5: a board whose round id, below 2^53, has bit 31 set cannot be
    followed to its round: whatever the remote store holds, the run ends
    with the parent stored, the child as it was, and the buffer's range
    error on the error page. *)
Theorem fetchData_stops_at_bit_31 (s : HomeState) (b : Board) :
  fetchBoard find connection = Ok b ->
  0 <= roundId b < 2 ^ 53 -> 2 ^ 31 <= roundId b mod 2 ^ 32 ->
  fetchData_final find toStr connection s
  = mkHome (Some b) (round s) false (Some BufferRangeError)
  /\ Home_render (fetchData_final find toStr connection s)
     = ErrorView BufferRangeError.
Proof.
  intros Hb Hr Hbit.
  assert (Hg : getRoundPDA find (roundId b) = Throw BufferRangeError).
  { unfold getRoundPDA. now rewrite (roundSeeds_throws (roundId b) Hr Hbit). }
  pose proof (fetchRound_needs_address find toStr connection _ _ Hg) as Hf.
  unfold fetchData_final.
  rewrite (fetchData_round_failed find toStr connection s b _ Hb Hf).
  split; reflexivity.
Qed.

(** X6: what the page shows around a run.  While [fetchData] runs, every
    state it goes through shows the loading page; the state it ends in
    shows the dashboard with the two records of this run when both steps
    succeeded and the error page with the error of the failing step
    otherwise, so never the loading page and never "No data available",
    whatever was stored before. *)
Theorem page_around_a_run (s : HomeState) :
  Home_render (fetchData_final find toStr connection s)
  = match fetchBoard find connection with
    | Throw e => ErrorView e
    | Ok b =>
        match fetchRound find toStr connection (roundId b) with
        | Throw e => ErrorView e
        | Ok r => DashboardView b r
        end
    end
  /\ (forall s',
         In s' (removelast (fetchData_trace find toStr connection s)) ->
         Home_render s' = LoadingView)
  /\ last (fetchData_trace find toStr connection s) s
     = fetchData_final find toStr connection s.
Proof.
  unfold fetchData_final, fetchData_trace.
  destruct (fetchBoard find connection) as [b|e] eqn:Hb.
  - destruct (fetchRound find toStr connection (roundId b)) as [r|e] eqn:Hr.
    + rewrite (fetchData_success find toStr connection s b r Hb Hr).
      cbn [fst snd states_success removelast last]. repeat split.
      intros s' Hin. cbn [In] in Hin.
      repeat destruct Hin as [<-|Hin]; try reflexivity; contradiction.
    + rewrite (fetchData_round_failed find toStr connection s b e Hb Hr).
      cbn [fst snd states_round_failed removelast last]. repeat split.
      intros s' Hin. cbn [In] in Hin.
      repeat destruct Hin as [<-|Hin]; try reflexivity; contradiction.
  - rewrite (fetchData_board_failed find toStr connection s e Hb).
    cbn [fst snd states_board_failed removelast last]. repeat split.
    intros s' Hin. cbn [In] in Hin.
    repeat destruct Hin as [<-|Hin]; try reflexivity; contradiction.
Qed.

End Page.

Lemma fetchData_stops_at_bit_31_witness :
  fetchBoard Sample.find
    (Sample.store (Ok (Some (Sample.board_bytes (mkBoard 2147483648 1 2))))
                  (Ok (Some (Sample.round_bytes 2147483648))))
  = Ok (mkBoard 2147483648 1 2)
  /\ Home_render
       (fetchData_final Sample.find Sample.key_text
          (Sample.store
             (Ok (Some (Sample.board_bytes (mkBoard 2147483648 1 2))))
             (Ok (Some (Sample.round_bytes 2147483648))))
          initialState)
     = ErrorView BufferRangeError.
Proof.
  assert (Hb : fetchBoard Sample.find
                 (Sample.store
                    (Ok (Some (Sample.board_bytes (mkBoard 2147483648 1 2))))
                    (Ok (Some (Sample.round_bytes 2147483648))))
               = Ok (mkBoard 2147483648 1 2)) by (vm_compute; reflexivity).
  split; [exact Hb|].
  refine (proj2 (fetchData_stops_at_bit_31 Sample.find Sample.key_text _
                   initialState (mkBoard 2147483648 1 2) Hb _ _)).
  - cbn [roundId]. lia.
  - cbn [roundId]. vm_compute. discriminate.
Defined.

(** ** The grid and the dashboard *)

Lemma grid_from_shown (deployed : list Z) :
  forall (count : list Z) (i : nat),
    (i + length deployed <= length count)%nat ->
    exists cells,
      grid_from count deployed i = Shown cells
      /\ length cells = length deployed
      /\ forall k lamports,
          nth_error deployed k = Some lamports ->
          exists miners,
            nth_error count (i + k) = Some miners
            /\ nth_error cells k
               = Some (mkCell (i + k) (lamports =? 0) (lamportsToSol lamports)
                         miners (negb (miners =? 1))).
Proof.
  induction deployed as [|l rest IH]; intros count i H.
  - exists []. split; [reflexivity|]. split; [reflexivity|].
    intros [|k] lamports Hk; discriminate.
  - cbn [length] in H. cbn [grid_from]. unfold grid_cell.
    destruct (nth_error count i) as [m|] eqn:Em.
    2:{ apply nth_error_None in Em. lia. }
    destruct (IH count (S i) ltac:(lia)) as (cells & -> & Hlen & Hnth).
    exists (mkCell i (SFeqb (lamportsToSol l) (Js.Number 0)) (lamportsToSol l)
              m (negb (m =? 1)) :: cells).
    split; [reflexivity|]. split; [cbn; now rewrite Hlen|].
    intros [|k] lamports Hk; cbn [nth_error] in Hk |- *.
    + inversion Hk; subst. exists m. rewrite Nat.add_0_r.
      split; [exact Em|]. now rewrite lamportsToSol_zero_eqb.
    + destruct (Hnth k lamports Hk) as (miners & Hc & Hcell).
      exists miners. replace (i + S k)%nat with (S i + k)%nat by lia.
      now split.
Qed.

Lemma grid_from_crashed (deployed : list Z) :
  forall (count : list Z) (i : nat),
    (i <= length count < i + length deployed)%nat ->
    grid_from count deployed i = Crashed CrashTypeError.
Proof.
  induction deployed as [|l rest IH]; intros count i H; cbn [length] in H;
    [lia|].
  cbn [grid_from]. unfold grid_cell.
  destruct (nth_error count i) as [m|] eqn:Em; [|reflexivity].
  assert (i < length count)%nat by (apply nth_error_Some; congruence).
  now rewrite (IH count (S i)) by lia.
Qed.

(** X10: the mining grid.  When the round has a miner count for every
    deployed amount, the grid has one square per amount, in order, each
    numbered by its position, holding that amount converted to SOL and
    the count at the same position, drawn empty exactly when the amount
    is zero and labelled "miners" unless the count is one.  When the
    counts are fewer than the amounts, rendering throws a TypeError. *)
Theorem Home_grid_squares (r : Round) :
  ((length (deployed r) <= length (count r))%nat ->
   exists cells,
     Home_grid r = Shown cells
     /\ length cells = length (deployed r)
     /\ forall k lamports,
         nth_error (deployed r) k = Some lamports ->
         exists miners,
           nth_error (count r) k = Some miners
           /\ nth_error cells k
              = Some (mkCell k (lamports =? 0) (lamportsToSol lamports)
                        miners (negb (miners =? 1))))
  /\ ((length (count r) < length (deployed r))%nat ->
      Home_grid r = Crashed CrashTypeError).
Proof.
  unfold Home_grid. split; intros H.
  - exact (grid_from_shown (deployed r) (count r) 0 H).
  - apply grid_from_crashed. lia.
Qed.

Lemma Home_grid_squares_witness :
  (length (deployed (Sample.round 7)) <= length (count (Sample.round 7)))%nat
  /\ exists cells,
      Home_grid (Sample.round 7) = Shown cells /\ length cells = 25%nat.
Proof.
  assert (H : (length (deployed (Sample.round 7))
               <= length (count (Sample.round 7)))%nat) by (vm_compute; lia).
  split; [exact H|].
  destruct (proj1 (Home_grid_squares (Sample.round 7)) H)
    as (cells & E & L & _).
  exists cells. split; [exact E|exact L].
Defined.

Lemma concat_empty_cons (x : string) (xs : list string) :
  String.concat "" (x :: xs) = (x ++ String.concat "" xs)%string.
Proof.
  destruct xs; cbn [String.concat].
  - induction x; cbn; congruence.
  - reflexivity.
Qed.

Lemma hex_byte (b : byte) :
  exists hi lo,
    padStart0 2 (toString16 b) = String hi (String lo EmptyString)
    /\ byte_of_hex hi lo = b
    /\ is_hex_digit hi = true /\ is_hex_digit lo = true.
Proof.
  destruct b; eexists; eexists; repeat split.
Qed.

Lemma slotHashHex_cons (b : byte) (slotHash : list byte) :
  slotHashHex (b :: slotHash)
  = (padStart0 2 (toString16 b) ++ slotHashHex slotHash)%string.
Proof. unfold slotHashHex. cbn [map]. apply concat_empty_cons. Qed.

Lemma slotHashHex_length (slotHash : list byte) :
  String.length (slotHashHex slotHash) = (2 * length slotHash)%nat.
Proof.
  induction slotHash as [|b h IH]; [reflexivity|].
  rewrite slotHashHex_cons.
  destruct (hex_byte b) as (hi & lo & -> & _).
  cbn [String.append String.length length]. rewrite IH. lia.
Qed.

(** X11: the slot hash is printed as two lower-case hexadecimal digits per
    byte, so its text is twice as long as the hash, and reading the
    digits back gives the hash: different hashes never print alike. *)
Theorem slotHashHex_roundtrip (slotHash : list byte) :
  unhex (slotHashHex slotHash) = slotHash
  /\ String.length (slotHashHex slotHash) = (2 * length slotHash)%nat
  /\ Forall (fun c => is_hex_digit c = true)
       (list_ascii_of_string (slotHashHex slotHash)).
Proof.
  split; [|split; [apply slotHashHex_length|]].
  - induction slotHash as [|b h IH]; [reflexivity|].
    rewrite slotHashHex_cons.
    destruct (hex_byte b) as (hi & lo & -> & Hb & _).
    cbn [String.append unhex]. now rewrite IH, Hb.
  - induction slotHash as [|b h IH]; [constructor|].
    rewrite slotHashHex_cons.
    destruct (hex_byte b) as (hi & lo & -> & _ & Hhi & Hlo).
    cbn [String.append list_ascii_of_string].
    repeat constructor; assumption.
Qed.

Section DashboardAfterRun.

Context {PublicKey : Type}.
Variable find : list (list byte) -> result PublicKey.
Variable toStr : list byte -> string.
Variable connection : Connection PublicKey.

Lemma fetchRound_decoded (roundId : Z) (r : Round) :
  fetchRound find toStr connection roundId = Ok r ->
  exists data, decodeRound toStr data = Ok r.
Proof.
  unfold fetchRound.
  destruct (getRoundPDA find roundId) as [pda|]; cbn [bind]; [|discriminate].
  destruct (connection pda) as [[data|]|]; cbn [bind]; try discriminate.
  eauto.
Qed.

(** X12: the dashboard drawn after a successful run never throws: the two
    records that [fetchData] stored always give a grid of 25 squares, a
    slot hash of 64 hexadecimal digits, and the two addresses that the
    run itself derived. *)
Theorem dashboard_after_success (b : Board) (r : Round) :
  fetchBoard find connection = Ok b ->
  fetchRound find toStr connection (roundId b) = Ok r ->
  exists d,
    Home_dashboard find b r = Shown d
    /\ length (shown_grid d) = 25%nat
    /\ String.length (shown_slotHash d) = 64%nat
    /\ getBoardPDA find = Ok (shown_boardPDA d)
    /\ getRoundPDA find (roundId b) = Ok (shown_roundPDA d).
Proof.
  intros Hb Hr.
  destruct (fetchBoard_has_address find connection b Hb) as (bp & Hbp).
  destruct (fetchRound_has_address find toStr connection _ r Hr) as (rp & Hrp).
  destruct (fetchRound_decoded _ r Hr) as (data & Hd).
  destruct (decodeRound_ok_inv toStr data r Hd)
    as (_ & tag & a & extra & _ & Ha & _ & ->).
  destruct Ha as (_ & (Ld & _) & Lh & (Lc & _) & _).
  unfold Home_dashboard, Home_grid.
  destruct (grid_from_shown (deployed (Round_of_account toStr a))
              (count (Round_of_account toStr a)) 0)
    as (cells & -> & Hlen & _).
  { cbn [deployed count Round_of_account]. lia. }
  rewrite Hbp, Hrp. eexists. split; [reflexivity|].
  cbn [shown_grid shown_slotHash shown_boardPDA shown_roundPDA].
  split; [rewrite Hlen; exact Ld|]. split; [|split; reflexivity].
  cbn [slotHash Round_of_account].
  now rewrite slotHashHex_length, Lh.
Qed.

End DashboardAfterRun.

(** ** When the countdown reads zero *)

Lemma Zdigits2_mul (a b : Z) :
  0 < a -> 0 < b -> Zdigits2 a + Zdigits2 b - 1 <= Zdigits2 (a * b).
Proof.
  intros Ha Hb.
  pose proof (Zdigits2_bounds a Ha) as [La _].
  pose proof (Zdigits2_bounds b Hb) as [Lb _].
  assert (Hda : 0 < Zdigits2 a) by (apply (proj1 (Zdigits2_pos_iff a ltac:(lia)) Ha)).
  assert (Hdb : 0 < Zdigits2 b) by (apply (proj1 (Zdigits2_pos_iff b ltac:(lia)) Hb)).
  pose proof (Zdigits2_ge_pow (a * b) (Zdigits2 a - 1 + (Zdigits2 b - 1))
                ltac:(lia)) as G.
  rewrite Z.pow_add_r in G by lia.
  assert (2 ^ (Zdigits2 a - 1) * 2 ^ (Zdigits2 b - 1) <= a * b).
  { apply Z.mul_le_mono_nonneg; try assumption; apply Z.pow_nonneg; lia. }
  lia.
Qed.

Lemma mul_SECONDS_PER_SLOT_at_least_one (z : Z) :
  4 <= z -> at_least_one (Js.mul (Js.Number z) CONSTANTS.SECONDS_PER_SLOT).
Proof.
  intros Hz.
  assert (Hdz : 3 <= Zdigits2 z)
    by (apply (Zdigits2_ge_pow z 2); [lia|change (2 ^ 2) with 4; lia]).
  assert (Hs : (z <? 0) = false) by (apply Z.ltb_ge; lia).
  unfold Js.mul, CONSTANTS.SECONDS_PER_SLOT.
  destruct (Number_shape z ltac:(lia)) as [(m & e & E & B)|[E _]];
    rewrite Hs in E; rewrite E; cbn [SFmul xorb]; [|now right].
  pose proof (Zdigits2_mul (Z.pos m) 7205759403792794 ltac:(lia) ltac:(lia))
    as Hmul.
  change (Zdigits2 7205759403792794) with 53 in Hmul.
  change (Z.pos (m * 7205759403792794))
    with (Z.pos m * 7205759403792794) in *.
  destruct (binary_round_aux_shape false (Z.pos m * 7205759403792794)
              (e + -54) loc_Exact ltac:(lia) ltac:(lia))
    as [(m' & e' & -> & B')|[-> _]]; [|now right].
  left. exists m', e'. split; [reflexivity|lia].
Qed.

Lemma Math_floor_at_least_one (x : spec_float) :
  at_least_one x -> nonzero_of_sign false (Js.Math_floor x).
Proof.
  intros [(m & e & -> & B)| ->]; [|now right].
  cbn [Js.Math_floor]. destruct e as [|p|p]; [left; eauto|left; eauto|].
  cbn [cond_Zopp].
  pose proof (Zdigits2_bounds (Z.pos m) ltac:(lia)) as [L _].
  assert (Hq : 0 < Z.pos m / 2 ^ (- Z.neg p)).
  { apply Z.div_str_pos. split; [apply Z.pow_pos_nonneg; lia|].
    apply Z.le_trans with (2 ^ (Zdigits2 (Z.pos m) - 1)); [|exact L].
    apply Z.pow_le_mono_r; lia. }
  destruct (Z.pos m / 2 ^ (- Z.neg p)) as [|q|q]; try lia.
  unfold binary_normalize.
  destruct (binary_round_shape false q) as [(m' & e' & -> & _)|[-> _]];
    [left; eauto|now right].
Qed.

Lemma Math_max_zero_positive (x : spec_float) :
  nonzero_of_sign false x -> Js.Math_max (Js.Number 0) x = x.
Proof. intros [(m & e & ->)| ->]; reflexivity. Qed.

(** X13: the countdown reads zero exactly when fewer than three slots
    remain: with three or more it is a positive number (at least one
    second), with two or fewer, none, or a deadline already passed, it is
    exactly 0. *)
Theorem calculateTimeRemaining_zero_iff (currentSlot endSlot : Z) :
  calculateTimeRemaining currentSlot endSlot = S754_zero false
  <-> endSlot - currentSlot <= 2.
Proof.
  unfold calculateTimeRemaining.
  destruct (Z.le_gt_cases 4 (endSlot - currentSlot)) as [H4|H4].
  - split; [|lia]. intros H.
    rewrite Math_max_zero_positive in H
      by (apply Math_floor_at_least_one, mul_SECONDS_PER_SLOT_at_least_one, H4).
    destruct (Math_floor_at_least_one _
                (mul_SECONDS_PER_SLOT_at_least_one _ H4))
      as [(m & e & E)|E]; rewrite E in H; discriminate.
  - destruct (Z.le_gt_cases (endSlot - currentSlot) (-1)) as [Hn|Hn].
    + split; [lia|]. intros _.
      apply Math_max_zero_negative, calculateTimeRemaining_sign_true. lia.
    + assert (Hc : endSlot - currentSlot = 0 \/ endSlot - currentSlot = 1
                   \/ endSlot - currentSlot = 2 \/ endSlot - currentSlot = 3)
        by lia.
      destruct Hc as [-> |[-> |[-> | ->]]]; vm_compute;
        (split; [intros H; try discriminate H; try (intros ?; discriminate)
                |intros H; try reflexivity; exfalso; apply H; reflexivity]).
Qed.

Section Rerun.

Context {PublicKey : Type}.
Variable find : list (list byte) -> result PublicKey.
Variable toStr : list byte -> string.
Variable connection : Connection PublicKey.

(** X7: running [fetchData] again against a store that answers the same
    changes nothing: the state a run ends in is a fixed point of the run,
    whatever state the first run started from and whether it succeeded
    or failed. *)
Theorem fetchData_rerun (s : HomeState) :
  fetchData_final find toStr connection
    (fetchData_final find toStr connection s)
  = fetchData_final find toStr connection s.
Proof.
  unfold fetchData_final.
  destruct (fetchBoard find connection) as [b|e] eqn:Hb.
  - destruct (fetchRound find toStr connection (roundId b)) as [r|e] eqn:Hr.
    + now rewrite !(fetchData_success find toStr connection _ b r Hb Hr).
    + now rewrite !(fetchData_round_failed find toStr connection _ b e Hb Hr).
  - now rewrite !(fetchData_board_failed find toStr connection _ e Hb).
Qed.

End Rerun.

(** ** The same, on the sample data *)

Lemma conversions_finite_witness :
  0 <= 1500000000 < 2 ^ 64
  /\ (lamportsToSol 1500000000 = S754_zero false
      \/ exists m e, lamportsToSol 1500000000 = S754_finite false m e).
Proof.
  assert (H : 0 <= 1500000000 < 2 ^ 64) by lia.
  split; [exact H|].
  exact (proj1 (conversions_finite 1500000000 H)).
Defined.

Lemma page_around_a_run_witness :
  In (mkHome None None true None)
     (removelast
        (fetchData_trace Sample.find Sample.key_text
           (Sample.store (Ok (Some (Sample.board_bytes Sample.board7)))
                         (Ok (Some (Sample.round_bytes 7))))
           initialState))
  /\ Home_render (mkHome None None true None) = LoadingView.
Proof.
  assert (H : In (mkHome None None true None)
                (removelast
                   (fetchData_trace Sample.find Sample.key_text
                      (Sample.store
                         (Ok (Some (Sample.board_bytes Sample.board7)))
                         (Ok (Some (Sample.round_bytes 7))))
                      initialState)))
    by (vm_compute; left; reflexivity).
  split; [exact H|].
  exact (proj1 (proj2 (page_around_a_run Sample.find Sample.key_text _
                         initialState)) _ H).
Defined.

Lemma dashboard_after_success_witness :
  fetchBoard Sample.find
    (Sample.store (Ok (Some (Sample.board_bytes Sample.board7)))
                  (Ok (Some (Sample.round_bytes 7)))) = Ok Sample.board7
  /\ fetchRound Sample.find Sample.key_text
       (Sample.store (Ok (Some (Sample.board_bytes Sample.board7)))
                     (Ok (Some (Sample.round_bytes 7)))) 7 = Ok (Sample.round 7)
  /\ exists d,
      Home_dashboard Sample.find Sample.board7 (Sample.round 7) = Shown d
      /\ length (shown_grid d) = 25%nat.
Proof.
  assert (Hb : fetchBoard Sample.find
                 (Sample.store (Ok (Some (Sample.board_bytes Sample.board7)))
                               (Ok (Some (Sample.round_bytes 7))))
               = Ok Sample.board7) by (vm_compute; reflexivity).
  assert (Hr : fetchRound Sample.find Sample.key_text
                 (Sample.store (Ok (Some (Sample.board_bytes Sample.board7)))
                               (Ok (Some (Sample.round_bytes 7))))
                 (roundId Sample.board7)
               = Ok (Sample.round 7)) by (vm_compute; reflexivity).
  split; [exact Hb|]. split; [exact Hr|].
  destruct (dashboard_after_success Sample.find Sample.key_text _
              Sample.board7 (Sample.round 7) Hb Hr) as (d & E & L & _).
  exists d. split; [exact E|exact L].
Defined.
